(** * ContentLens orchestration core: a shallow embedding in Rocq

    Embedded sources (under backend/app):
    - nodes/router_node.py        : [router_node], [group_parallel_agents]
    - nodes/parallel_batch_node.py: [AGENT_MAP], [parallel_batch_executor],
                                    [_execute_agent], [_execute_batch_parallel]
    - agents/router.py            : [RouterAgent.decide], [_keyword_fallback]
    - agents/compliance.py        : [ComplianceAgent.run] and helpers
    - api/routes.py               : [process_document]
    - workflows/process_document.py: the signature of [run_document_workflow],
                                    [_extract_agent_output], [_clean_response_state]
    - graphs/document_graph.py    : [router_node], [routing_logic], the task
                                    nodes' step counter, [create_graph]
    - nodes/parallel_batch_node.py: [_execute_batch_async], the timeout path of
                                    [_execute_batch_parallel]
    - utils/output_validator.py   : [validate_compliance]
    - utils/text_utils.py         : [clean_extra_whitespace]
    - tools/validators.py         : [BriefValidator.is_valid_brief], [sanitize_text]

    A Python [str] is a sequence of Unicode code points, modelled as
    [list Z].  Literals are written as ASCII Rocq strings and converted with
    [py]. *)

From Stdlib Require Import ZArith Lia Bool.
From Stdlib Require Import Strings.String Strings.Ascii.
From stdpp Require Import base list gmap.

Local Open Scope Z_scope.

(* ------------------------------------------------------------------ *)
(** ** Python strings *)

Abbreviation pystr := (list Z).

(** ASCII literal to code points. *)
Definition py (s : string) : pystr :=
  map (fun a => Z.of_nat (nat_of_ascii a)) (list_ascii_of_string s).
Arguments py _%_string.

Definition pystr_eqb (a b : pystr) : bool := bool_decide (a = b).

(** [x in xs] for a list of strings. *)
Definition py_mem (x : pystr) (xs : list pystr) : bool :=
  existsb (pystr_eqb x) xs.

Fixpoint is_prefix (p s : pystr) : bool :=
  match p, s with
  | [], _ => true
  | c :: p', d :: s' => (c =? d) && is_prefix p' s'
  | _ :: _, [] => false
  end.

(** [needle in hay] for two [str]s (the empty needle is in every string). *)
Fixpoint py_in (needle hay : pystr) : bool :=
  is_prefix needle hay ||
  match hay with
  | [] => false
  | _ :: hay' => py_in needle hay'
  end.

(* ------------------------------------------------------------------ *)
(** ** Batch Planner: [group_parallel_agents] (nodes/router_node.py) *)

Module Planner.

Definition translate : pystr := py "translate".
Definition compliance : pystr := py "compliance".

(** One iteration of the [for task in enumerate(tasks)] loop, with the
    pending [current_batch] and the [batches] built so far. *)
Definition flush (batches : list (list pystr)) (current_batch : list pystr)
  : list (list pystr) :=
  match current_batch with
  | [] => batches
  | _ => batches ++ [current_batch]
  end.

Fixpoint group_loop (tasks : list pystr) (batches : list (list pystr))
    (current_batch : list pystr) : list (list pystr) :=
  match tasks with
  | [] => flush batches current_batch
  | task :: rest =>
      if pystr_eqb task translate then
        group_loop rest (flush batches current_batch ++ [[task]]) []
      else if pystr_eqb task compliance then
        group_loop rest (flush batches current_batch ++ [[task]]) []
      else
        group_loop rest batches (current_batch ++ [task])
  end.

Definition group_parallel_agents (tasks : list pystr) : list (list pystr) :=
  match tasks with
  | [] => []
  | _ => group_loop tasks [] []
  end.

(** A task that the planner isolates in a batch of its own. *)
Definition runs_alone (task : pystr) : bool :=
  pystr_eqb task translate || pystr_eqb task compliance.

(** A batch [[t]] with [t] one of [translate] / [compliance]. *)
Definition solo_batch (b : list pystr) : bool :=
  match b with
  | [t] => runs_alone t
  | _ => false
  end.

(** A batch is a solo batch, or a non-empty batch of parallel-safe tasks. *)
Definition batch_shape (b : list pystr) : Prop :=
  solo_batch b = true \/ (b <> [] /\ Forall (fun t => runs_alone t = false) b).

(** No two neighbouring batches are both parallel batches. *)
Fixpoint alternates (bs : list (list pystr)) : bool :=
  match bs with
  | b1 :: ((b2 :: _) as rest) => (solo_batch b1 || solo_batch b2) && alternates rest
  | _ => true
  end.

(** Loop invariant of [group_parallel_agents]. *)
Definition loop_inv (bs : list (list pystr)) (cur : list pystr) : Prop :=
  Forall batch_shape bs /\
  Forall (fun t => runs_alone t = false) cur /\
  alternates (flush bs cur) = true /\
  (cur = [] -> forall x, last bs = Some x -> solo_batch x = true).

End Planner.


(* ------------------------------------------------------------------ *)
(** ** Unicode character tables

    [str.lower], [str.strip] and the [re] module consult the Unicode
    database.  The embedding takes the tables it needs as a class:
    - [uc_lower c]   : [c.lower()] of the one-code-point string [c]
                       (str.lower maps code point by code point; its one
                       context rule, the Greek final sigma, is left out);
    - [uc_isspace c] : [c.isspace()], also what [re]'s [\s] matches;
    - [uc_isword c]  : [re]'s [\w]: [c.isalnum() or c == '_'];
    - [uc_ieq p c]   : pattern character [p] matches text character [c]
                       under [re.IGNORECASE]. *)
Class PyUnicode := {
  uc_lower : Z -> list Z;
  uc_isspace : Z -> bool;
  uc_isword : Z -> bool;
  uc_ieq : Z -> Z -> bool
}.

(** The tables restricted to Latin-1 (code points below 256), where they are
    exact; code points from 256 on are left unchanged, are no space and no
    word character.  Every concrete input below is ASCII. *)
Definition latin1_lower_cp (c : Z) : Z :=
  if ((65 <=? c) && (c <=? 90)) || ((192 <=? c) && (c <=? 222) && negb (c =? 215))
  then c + 32 else c.

Definition latin1_isspace (c : Z) : bool :=
  ((9 <=? c) && (c <=? 13)) || ((28 <=? c) && (c <=? 32)) || (c =? 133) || (c =? 160).

Definition latin1_isword (c : Z) : bool :=
  ((48 <=? c) && (c <=? 57)) || ((65 <=? c) && (c <=? 90)) || (c =? 95) ||
  ((97 <=? c) && (c <=? 122)) || (c =? 170) || (c =? 178) || (c =? 179) ||
  (c =? 181) || (c =? 185) || (c =? 186) || ((188 <=? c) && (c <=? 190)) ||
  ((192 <=? c) && (c <=? 214)) || ((216 <=? c) && (c <=? 246)) ||
  ((248 <=? c) && (c <=? 255)).

#[global] Instance latin1_unicode : PyUnicode := {
  uc_lower c := [latin1_lower_cp c];
  uc_isspace := latin1_isspace;
  uc_isword := latin1_isword;
  uc_ieq p c := latin1_lower_cp p =? latin1_lower_cp c
}.

Section Text.
Context {U : PyUnicode}.

(** [s.lower()] *)
Definition py_lower (s : pystr) : pystr := flat_map uc_lower s.

Fixpoint lstrip (s : pystr) : pystr :=
  match s with
  | [] => []
  | c :: t => if uc_isspace c then lstrip t else s
  end.

(** [s.strip()] *)
Definition py_strip (s : pystr) : pystr := rev (lstrip (rev (lstrip s))).

(** [s.split(sep)] for a one-character separator. *)
Fixpoint py_split (sep : Z) (s : pystr) : list pystr :=
  match s with
  | [] => [[]]
  | c :: t =>
      let parts := py_split sep t in
      if c =? sep then [] :: parts
      else match parts with
           | [] => [[c]]
           | w :: ws => (c :: w) :: ws
           end
  end.

End Text.

(* ------------------------------------------------------------------ *)
(** ** Task Router: [RouterAgent] (agents/router.py) *)

Module Router.

Definition summarize : pystr := py "summarize".
Definition translate : pystr := py "translate".
Definition analyze : pystr := py "analyze".
Definition recommend : pystr := py "recommend".
Definition ideate : pystr := py "ideate".
Definition copywrite : pystr := py "copywrite".
Definition compliance : pystr := py "compliance".

Definition valid_steps : list pystr :=
  [summarize; translate; analyze; recommend; ideate; copywrite; compliance].

(** The keyword lists of [_keyword_fallback], in source order. *)
Definition translate_words : list pystr :=
  [py "translate"; py "arabic"; [1593; 1585; 1576; 1610]; [1578; 1585; 1580; 1605]].
Definition analyze_words : list pystr :=
  map py ["analyze"; "analysis"; "audit"; "assess"; "review"; "brief"]%string.
Definition summary_words : list pystr :=
  map py ["summarize"; "summary"; "tldr"; "brief overview"; "short"]%string.
Definition recommend_words : list pystr :=
  map py ["recommend"; "suggestion"; "ideas"; "what should"; "next steps"]%string.
Definition ideate_words : list pystr :=
  map py ["idea"; "ideas"; "campaign"; "headline"; "tagline"; "concept"]%string.
Definition copywrite_words : list pystr :=
  map py ["email"; "subject"; "copy"; "landing"; "ad"; "headline"; "cta"]%string.
Definition compliance_words : list pystr :=
  map py ["gdpr"; "can-spam"; "privacy"; "compliance"; "opt-out"; "unsubscribe"]%string.

Section WithUnicode.
Context {U : PyUnicode}.

(** [any(word in request_lower for word in words)] *)
Definition any_in (words : list pystr) (request_lower : pystr) : bool :=
  existsb (fun word => py_in word request_lower) words.

(** [RouterAgent._keyword_fallback] *)
Definition keyword_fallback (user_request : pystr) : list pystr :=
  let request_lower := py_lower user_request in
  let tasks : list pystr := [] in
  let tasks := if any_in translate_words request_lower then tasks ++ [translate] else tasks in
  let tasks := if any_in analyze_words request_lower then tasks ++ [analyze] else tasks in
  let tasks := if any_in summary_words request_lower
               then (if py_mem summarize tasks then tasks else summarize :: tasks)
               else tasks in
  let tasks := if any_in recommend_words request_lower then tasks ++ [recommend] else tasks in
  let tasks := if any_in ideate_words request_lower then tasks ++ [ideate] else tasks in
  let tasks := if any_in copywrite_words request_lower then tasks ++ [copywrite] else tasks in
  let tasks := if any_in compliance_words request_lower then tasks ++ [compliance] else tasks in
  match tasks with
  | [] => [analyze]
  | _ => tasks
  end.

(** The "Validate and filter" loop of [decide]: for each task, the first
    valid step that occurs in it and is not yet kept. *)
Definition filter_tasks (tasks : list pystr) : list pystr :=
  fold_left
    (fun filtered_tasks task =>
       match find (fun valid => py_in valid task && negb (py_mem valid filtered_tasks))
                  valid_steps with
       | Some valid => filtered_tasks ++ [valid]
       | None => filtered_tasks
       end)
    tasks [].

(** [RouterAgent.decide].  [llm user_request] is the text returned by
    [chain.invoke], or [None] when anything in the [try] block raises before
    the filtering (the model call, or a non-string response). *)
Definition decide (llm : pystr -> option pystr) (user_request : pystr) : list pystr :=
  match llm user_request with
  | None => keyword_fallback user_request
  | Some raw =>
      let response := py_lower (py_strip raw) in
      let tasks := map py_strip (py_split 44 response) in
      let filtered_tasks := filter_tasks tasks in
      match filtered_tasks with
      | [] => keyword_fallback user_request
      | _ => filtered_tasks
      end
  end.

End WithUnicode.
End Router.


(* ------------------------------------------------------------------ *)
(** ** Python values, exceptions and the workflow state *)

(** The Python values that flow through the state (agent outputs are
    arbitrary objects: strings, dicts, ...). *)
Local Set Warnings "-register-all".
Inductive pyval :=
| VNone
| VBool (b : bool)
| VInt (z : Z)
| VStr (s : pystr)
| VList (l : list pyval)
| VDict (d : list (pystr * pyval)).

(** The exceptions the embedded code raises. *)
Inductive PyExc :=
| KeyError (key : pystr)
| ValueError (msg : pystr)
| TypeError (msg : pystr)
| HTTPException (status_code : Z) (detail : pystr)
| IndexError (msg : pystr).

Module Workflow.

(** [AgentState] (models/state/state.py) is a [TypedDict(total=False)]: each
    key is present ([Some]) or absent ([None]).  [parallel_batches] and
    [current_batch_index] are the keys [router_node] and
    [parallel_batch_executor] add.  The capability-output keys ([summary],
    [translation], [analysis], [recommendation], [ideation], [copywriting],
    [compliance]) are kept together in [outputs], keyed by field name.
    [next_steps] and [current_step_index] are [Optional]: [Some None] is the
    key holding [None]. *)
Record AgentState := mkAgentState {
  raw_text : option pystr;
  user_request : option pystr;
  source_lang : option pystr;
  extraction : option pyval;
  next_steps : option (option (list pystr));
  current_step_index : option (option Z);
  parallel_batches : option (list (list pystr));
  current_batch_index : option nat;
  outputs : gmap pystr pyval
}.

(** A node's returned dict of updates has the same shape: a key is set or
    not; [{}] is [empty_update]. *)
Definition empty_update : AgentState :=
  mkAgentState None None None None None None None None ∅.

(** The graph applies a node's returned updates to the state key by key. *)
Definition pick {A} (new old : option A) : option A :=
  match new with Some v => Some v | None => old end.

Definition apply_update (u s : AgentState) : AgentState :=
  mkAgentState (pick (raw_text u) (raw_text s)) (pick (user_request u) (user_request s))
    (pick (source_lang u) (source_lang s)) (pick (extraction u) (extraction s))
    (pick (next_steps u) (next_steps s)) (pick (current_step_index u) (current_step_index s))
    (pick (parallel_batches u) (parallel_batches s))
    (pick (current_batch_index u) (current_batch_index s))
    (outputs u ∪ outputs s).

(** Merging the dict returned by the executor (capability outputs). *)
Definition merge_outputs (results : gmap pystr pyval) (s : AgentState) : AgentState :=
  mkAgentState (raw_text s) (user_request s) (source_lang s) (extraction s)
    (next_steps s) (current_step_index s) (parallel_batches s)
    (current_batch_index s) (results ∪ outputs s).

(** [state["current_batch_index"] = v], an in-place write on the state
    object the executor received. *)
Definition set_current_batch_index (v : nat) (s : AgentState) : AgentState :=
  mkAgentState (raw_text s) (user_request s) (source_lang s) (extraction s)
    (next_steps s) (current_step_index s) (parallel_batches s) (Some v) (outputs s).

(** [not state.get("next_steps")] is false: the key holds a non-empty list. *)
Definition next_steps_set (s : AgentState) : bool :=
  match next_steps s with
  | Some (Some (_ :: _)) => true
  | _ => false
  end.

Section Nodes.
Context `{PyUnicode}.

(** [router_node] (nodes/router_node.py); [llm] is the model behind
    [RouterAgent().decide]. *)
Definition router_node (llm : pystr -> option pystr) (state : AgentState)
  : PyExc + AgentState :=
  if next_steps_set state then inr empty_update
  else match user_request state with
       | None => inl (KeyError (py "user_request"))
       | Some ur =>
           let decisions := Router.decide llm ur in
           let batches := Planner.group_parallel_agents decisions in
           inr (mkAgentState None None None None (Some (Some decisions)) (Some (Some 0%Z))
                  (Some batches) (Some 0%nat) ∅)
       end.

End Nodes.

(** [AGENT_MAP] (nodes/parallel_batch_node.py): capability name to agent class. *)
Definition AGENT_MAP : list (pystr * pystr) :=
  [(py "summarize", py "SummarizerAgent"); (py "translate", py "TranslatorAgent");
   (py "analyze", py "AnalyzerAgent"); (py "recommend", py "RecommenderAgent");
   (py "ideate", py "IdeationAgent"); (py "copywrite", py "CopywriterAgent");
   (py "compliance", py "ComplianceAgent")].

(** [d.get(k)] on an association list. *)
Definition assoc_get (k : pystr) (d : list (pystr * pystr)) : option pystr :=
  option_map snd (find (fun kv => pystr_eqb (fst kv) k) d).

(** The [state_key] dict of [_execute_agent]. *)
Definition STATE_KEYS : list (pystr * pystr) :=
  [(py "summarize", py "summary"); (py "translate", py "translation");
   (py "analyze", py "analysis"); (py "recommend", py "recommendation");
   (py "ideate", py "ideation"); (py "copywrite", py "copywriting");
   (py "compliance", py "compliance")].

Definition state_key (agent_name : pystr) : pystr :=
  match assoc_get agent_name STATE_KEYS with
  | Some k => k
  | None => agent_name ++ py "_output"
  end.

Section Executor.

(** [agent_run cls kwargs]: [cls()] followed by its [run] with the keyword
    arguments [kwargs]; [None]
    when either raises.  The agents are black boxes. *)
Variable agent_run : pystr -> list (pystr * pyval) -> option pyval.

(** [_execute_agent]: the whole body is in [try ... except Exception: return {}]. *)
Definition execute_agent (agent_name : pystr) (state : AgentState) : gmap pystr pyval :=
  match assoc_get agent_name AGENT_MAP with
  | None => ∅
  | Some agent_class =>
      let extracted_text :=
        match extraction state with
        | Some v => v
        | None => VStr (default [] (raw_text state))
        end in
      let user_request := VStr (default [] (user_request state)) in
      let source_lang := match source_lang state with Some l => VStr l | None => VNone end in
      let kwargs :=
        if pystr_eqb agent_name (py "summarize") then
          Some [(py "extraction_data", extracted_text)]
        else if pystr_eqb agent_name (py "translate") then
          Some [(py "content", extracted_text); (py "source_lang", source_lang)]
        else if pystr_eqb agent_name (py "analyze") then
          Some [(py "content", extracted_text)]
        else if pystr_eqb agent_name (py "recommend") then
          Some [(py "content", extracted_text); (py "user_request", user_request)]
        else if pystr_eqb agent_name (py "ideate") then
          Some [(py "content", extracted_text)]
        else if pystr_eqb agent_name (py "copywrite") then
          Some [(py "brief", extracted_text); (py "user_request", user_request)]
        else if pystr_eqb agent_name (py "compliance") then
          Some [(py "content", extracted_text)]
        else None in
      match kwargs with
      | None => ∅
      | Some kw =>
          match agent_run agent_class kw with
          | None => ∅
          | Some output => {[ state_key agent_name := output ]}
          end
      end
  end.

(** The collection loop of [_execute_batch_parallel] when no
    [future.result(timeout=120)] times out: futures are read in submission
    order and [results.update(result)] lets later keys win.  [_execute_agent]
    never raises.  The timeout path is modelled in [BatchTimeout] below. *)
Definition collect_results (batch : list pystr) (state : AgentState) : gmap pystr pyval :=
  fold_left (fun results agent_name => execute_agent agent_name state ∪ results) batch ∅.

(** [_execute_batch_parallel]: [ThreadPoolExecutor(max_workers=len(batch))]
    raises [ValueError] on an empty batch. *)
Definition execute_batch_parallel (batch : list pystr) (state : AgentState)
  : PyExc + gmap pystr pyval :=
  match batch with
  | [] => inl (ValueError (py "max_workers must be greater than 0"))
  | _ => inr (collect_results batch state)
  end.

(** [parallel_batch_executor]: returns the state object after the call (the
    cursor is written into it in place) and the returned dict. *)
Definition parallel_batch_executor (state : AgentState)
  : PyExc + (AgentState * gmap pystr pyval) :=
  let batches := default [] (parallel_batches state) in
  let batch_index := default 0%nat (current_batch_index state) in
  if (length batches <=? batch_index)%nat then inr (state, ∅)
  else
    let current_batch := nth batch_index batches [] in
    let all_results :=
      match current_batch with
      | [agent_name] => inr (execute_agent agent_name state)
      | _ => execute_batch_parallel current_batch state
      end in
    match all_results with
    | inl e => inl e
    | inr results => inr (set_current_batch_index (S batch_index) state, results)
    end.

(** The states of a run: routed by [router_node], then advanced by executor
    calls whose returned dict is merged into the state. *)
Context `{PyUnicode}.
Variable llm : pystr -> option pystr.

Inductive reachable : AgentState -> Prop :=
| reach_route s u :
    next_steps_set s = false -> router_node llm s = inr u ->
    reachable (apply_update u s)
| reach_exec s s' results :
    reachable s -> parallel_batch_executor s = inr (s', results) ->
    reachable (merge_outputs results s').

End Executor.
End Workflow.


(** Concrete inputs for the executor. *)
Module ExecutorInputs.
Import Workflow.

(** A routed state whose only batch is [[summarize, analyze]]. *)
Definition two_task_state : AgentState :=
  mkAgentState (Some (py "Brief: launch campaign")) (Some (py "Summarize and analyze"))
    (Some (py "en")) None (Some (Some [py "summarize"; py "analyze"])) (Some (Some 0%Z))
    (Some [[py "summarize"; py "analyze"]]) (Some 0%nat) ∅.

(** The summarizer answers, the analyzer raises. *)
Definition analyzer_fails (agent_class : pystr) (_ : list (pystr * pyval)) : option pyval :=
  if pystr_eqb agent_class (py "SummarizerAgent") then Some (VStr (py "A short summary."))
  else None.

End ExecutorInputs.


(* ------------------------------------------------------------------ *)
(** ** Compliance agent: [ComplianceAgent] (agents/compliance.py) *)

Module Compliance.

Inductive Severity := BLOCK | REVIEW | PRIVACY.

#[global] Instance Severity_eq_dec : EqDecision Severity.
Proof. solve_decision. Defined.

(** [Severity.X.value] *)
Definition value (sv : Severity) : pystr :=
  match sv with
  | BLOCK => py "block"
  | REVIEW => py "review"
  | PRIVACY => py "privacy"
  end.

(** Each rule pattern has the shape [\b(a1|a2|...)\b] with literal
    alternatives; [pattern] lists them in the order the regex engine tries
    them.  [risk[- ]?free] tries one of [-], space and then no character:
    the alternatives "risk-free", "risk free", "riskfree". *)
Record ComplianceRule := mkRule {
  pattern : list pystr;
  severity : Severity;
  description : pystr
}.

Definition RULES : list ComplianceRule :=
  [ mkRule (map py ["spam"; "cookie stuffing"; "harvest"; "sell data"; "sell personal"]%string)
      BLOCK (py "Illegal or unethical marketing behavior");
    mkRule (map py ["ssn"; "social security"; "credit card"; "dob"; "date of birth";
                    "personal data"]%string)
      PRIVACY (py "Sensitive personal data detected");
    mkRule (map py ["guarantee"; "risk-free"; "risk free"; "riskfree"; "best ever";
                    "unlimited"]%string)
      REVIEW (py "Potential misleading marketing claim") ].

(** [Issue]: the severity is stored as [rule.severity.value]. *)
Record Issue := mkIssue {
  issue_severity : pystr;
  issue_match : pystr;
  issue_description : pystr
}.

Record Report := mkReport {
  status : pystr;
  issues : list Issue;
  issue_count : nat;
  risk_score : Z
}.

Section WithUnicode.
Context `{PyUnicode}.

(** [re.sub(r"\s+", " ", text)]; [in_run] is set inside a run of spaces. *)
Fixpoint collapse_ws (in_run : bool) (s : pystr) : pystr :=
  match s with
  | [] => []
  | c :: t =>
      if uc_isspace c then
        (if in_run then collapse_ws true t else 32 :: collapse_ws true t)
      else c :: collapse_ws false t
  end.

(** [_normalize] *)
Definition normalize (text : pystr) : pystr :=
  py_strip (collapse_ws false (py_lower text)).

(** [\b] between the character before and the character after a position
    ([None] at either end of the text). *)
Definition is_word_opt (c : option Z) : bool :=
  match c with Some x => uc_isword x | None => false end.

Definition word_boundary (before after : option Z) : bool :=
  xorb (is_word_opt before) (is_word_opt after).

(** The text starts with [p], character by character under IGNORECASE. *)
Fixpoint ieq_prefix (p s : pystr) : bool :=
  match p, s with
  | [], _ => true
  | c :: p', d :: s' => uc_ieq c d && ieq_prefix p' s'
  | _ :: _, [] => false
  end.

(** The group [(a1|a2|...)] followed by [\b], at a position with [prev] the
    character before it and [s] the rest of the text: the length matched by
    the first alternative that succeeds. *)
Fixpoint match_group (alts : list pystr) (prev : option Z) (s : pystr) : option nat :=
  match alts with
  | [] => None
  | a :: rest =>
      let n := length a in
      let before_end := match n with 0%nat => prev | S k => nth_error s k end in
      if ieq_prefix a s && word_boundary before_end (nth_error s n)
      then Some n
      else match_group rest prev s
  end.

(** The whole pattern [\b(...)\b] at a position. *)
Definition match_at (alts : list pystr) (prev : option Z) (s : pystr) : option nat :=
  if word_boundary prev (head s) then match_group alts prev s else None.

(** The scan of [re.findall]: a match is reported as the group's text and
    the scan resumes after it; otherwise it moves one character on.  (The
    rule patterns have no empty alternative, so every match consumes text.) *)
Fixpoint scan (fuel : nat) (alts : list pystr) (prev : option Z) (s : pystr) : list pystr :=
  match fuel with
  | 0%nat => []
  | S fuel' =>
      match match_at alts prev s with
      | Some n =>
          let prev' := match n with 0%nat => prev | S k => nth_error s k end in
          take n s :: scan fuel' alts prev' (drop n s)
      | None =>
          match s with
          | [] => []
          | c :: t => scan fuel' alts (Some c) t
          end
      end
  end.

(** [re.findall(rule.pattern, text, flags=re.IGNORECASE)] *)
Definition findall (alts : list pystr) (text : pystr) : list pystr :=
  scan (S (length text)) alts None text.

(** The issue list built by [run]: rule by rule, match by match. *)
Definition collect_issues (normalized : pystr) : list Issue :=
  flat_map (fun rule =>
              map (fun m => mkIssue (value (severity rule)) m (description rule))
                  (findall (pattern rule) normalized))
           RULES.

End WithUnicode.

(** [i["severity"] == Severity.X]: a [str] enum compares as its value. *)
Definition has_severity (sv : Severity) (i : Issue) : bool :=
  pystr_eqb (issue_severity i) (value sv).

(** [_resolve_status] *)
Definition resolve_status (issues : list Issue) : pystr :=
  if existsb (has_severity BLOCK) issues then value BLOCK
  else if existsb (has_severity PRIVACY) issues then value REVIEW
  else match issues with
       | _ :: _ => value REVIEW
       | [] => py "ok"
       end.

(** The [weights] dict of [_calculate_risk]. *)
Definition weights : list (pystr * Z) :=
  [(value BLOCK, 5); (value PRIVACY, 3); (value REVIEW, 1)].

Definition weight_get (k : pystr) : option Z :=
  option_map snd (find (fun kv => pystr_eqb (fst kv) k) weights).

(** [_calculate_risk]: [sum(weights[i["severity"]] for i in issues)];
    an unknown severity raises [KeyError]. *)
Fixpoint calculate_risk (issues : list Issue) : PyExc + Z :=
  match issues with
  | [] => inr 0
  | i :: rest =>
      match weight_get (issue_severity i) with
      | None => inl (KeyError (issue_severity i))
      | Some w =>
          match calculate_risk rest with
          | inl e => inl e
          | inr r => inr (w + r)
          end
      end
  end.

(** [ComplianceAgent.run] *)
Definition run `{PyUnicode} (content : pystr) : PyExc + Report :=
  let normalized := normalize content in
  let issues := collect_issues normalized in
  let status := resolve_status issues in
  match calculate_risk issues with
  | inl e => inl e
  | inr risk => inr (mkReport status issues (length issues) risk)
  end.

(** Number of issues of a severity. *)
Definition count_severity (sv : Severity) (issues : list Issue) : Z :=
  Z.of_nat (length (List.filter (has_severity sv) issues)).

End Compliance.


(* ------------------------------------------------------------------ *)
(** ** HTTP surface: [POST /process-document] (api/routes.py) *)

Module Api.

Fixpoint digits_aux (fuel n : nat) (acc : pystr) : pystr :=
  match fuel with
  | O => acc
  | S fuel' =>
      let acc' := (48 + Z.of_nat (n mod 10)) :: acc in
      if (n <? 10)%nat then acc' else digits_aux fuel' (n / 10) acc'
  end.

(** [str(z)] for an [int]. *)
Definition z_str (z : Z) : pystr :=
  if z <? 0 then py "-" ++ digits_aux (S (Z.to_nat (- z))) (Z.to_nat (- z)) []
  else digits_aux (S (Z.to_nat z)) (Z.to_nat z) [].

(** [str(e)] of an exception: a [KeyError] prints its key quoted, FastAPI's
    [HTTPException] prints as ["{status_code}: {detail}"]. *)
Definition exc_str (e : PyExc) : pystr :=
  match e with
  | KeyError k => [39] ++ k ++ [39]
  | ValueError m => m
  | TypeError m => m
  | HTTPException code detail => z_str code ++ py ": " ++ detail
  | IndexError m => m
  end.

Definition quoted (name : pystr) : pystr := [39] ++ name ++ [39].

(** CPython's list of missing parameter names: ['a'], ['a' and 'b'],
    ['a', 'b', and 'c']. *)
Fixpoint join_names_tail (names : list pystr) : pystr :=
  match names with
  | [] => []
  | [a] => py "and " ++ quoted a
  | a :: rest => quoted a ++ py ", " ++ join_names_tail rest
  end.

Definition join_names (names : list pystr) : pystr :=
  match names with
  | [] => []
  | [a] => quoted a
  | [a; b] => quoted a ++ py " and " ++ quoted b
  | a :: rest => quoted a ++ py ", " ++ join_names_tail rest
  end.

(** CPython's binding of [n_args] positional arguments to a function whose
    positional parameters are [params], none with a default. *)
Definition bind_positional (fname : pystr) (params : list pystr) (n_args : nat) : option PyExc :=
  let n := length params in
  if (n <? n_args)%nat then
    Some (TypeError (fname ++ py "() takes " ++ z_str (Z.of_nat n) ++
      (if (n =? 1)%nat then py " positional argument but " else py " positional arguments but ") ++
      z_str (Z.of_nat n_args) ++
      (if (n_args =? 1)%nat then py " was given" else py " were given")))
  else if (n_args <? n)%nat then
    let missing := drop n_args params in
    Some (TypeError (fname ++ py "() missing " ++ z_str (Z.of_nat (length missing)) ++
      (if (length missing =? 1)%nat then py " required positional argument: "
       else py " required positional arguments: ") ++ join_names missing))
  else None.

(** Python truthiness. *)
Definition truthy (v : pyval) : bool :=
  match v with
  | VNone => false
  | VBool b => b
  | VInt z => negb (z =? 0)
  | VStr s => negb (length s =? 0)%nat
  | VList l => negb (length l =? 0)%nat
  | VDict d => negb (length d =? 0)%nat
  end.

(** [os.path.join(d, name)] on POSIX. *)
Definition path_join (d name : pystr) : pystr :=
  match name with
  | 47 :: _ => name
  | _ => d ++ py "/" ++ name
  end.

(** What FastAPI sends: the returned dict with status 200, or the status and
    detail of the [HTTPException] the handler raised. *)
Inductive Response :=
| Ok200 (body : gmap pystr pyval)
| HttpError (status_code : Z) (detail : pystr).

Section Route.
Context `{PyUnicode}.

(** The body of [run_document_workflow] on its bound arguments: loading,
    validation, language detection and the graph.  It catches every
    exception itself and then returns [{"error": str(e)}]. *)
Variable workflow_body : list pyval -> gmap pystr pyval.

(** [str(v)] of a value. *)
Variable str_of : pyval -> pystr.

(** [async def run_document_workflow(file_path: str, user_request: str)] *)
Definition RUN_DOCUMENT_WORKFLOW_PARAMS : list pystr := [py "file_path"; py "user_request"].

(** A call of [run_document_workflow] on [args]: the arguments are bound when the
    call is made, before a coroutine exists to await. *)
Definition call_run_document_workflow (args : list pyval) : PyExc + gmap pystr pyval :=
  match bind_positional (py "run_document_workflow") RUN_DOCUMENT_WORKFLOW_PARAMS (length args) with
  | Some e => inl e
  | None => inr (workflow_body args)
  end.

(** [process_document]; [saved] is the outcome of writing the upload to
    [file_path] ([None]: written).  The [finally] cleanup does not change
    the response. *)
Definition process_document (filename : pystr) (saved : option PyExc)
    (user_request extract_only : pystr) : Response :=
  let file_path := path_join (py "temp_uploads") filename in
  let attempt : PyExc + gmap pystr pyval :=
    match saved with
    | Some e => inl e
    | None =>
        let extract_flag := py_mem (py_lower extract_only) [py "1"; py "true"; py "yes"] in
        match call_run_document_workflow [VStr file_path; VStr user_request; VBool extract_flag] with
        | inl e => inl e
        | inr result =>
            match result !! py "error" with
            | Some err =>
                if truthy (default VNone (result !! py "extraction")) then inr result
                else inl (HTTPException 500 (str_of err))
            | None => inr result
            end
        end
    end in
  match attempt with
  | inl e => HttpError 500 (py "Internal Server Error: " ++ exc_str e)
  | inr result => Ok200 result
  end.

End Route.

End Api.

(* ------------------------------------------------------------------ *)
(** ** The sequential graph: [routing_logic] and [create_graph]
    (nodes/router_node.py, graphs/document_graph.py) *)

Module Graph.
Import Workflow.

(** The [valid_channels] set of [routing_logic]. *)
Definition valid_channels : list pystr :=
  map py ["to_summarize"; "to_translate"; "to_analyze"; "to_recommend";
          "to_ideate"; "to_copywrite"; "to_compliance"]%string.

(** [state.get("next_steps", [])]; [None] is Python's [None]. *)
Definition get_steps (state : AgentState) : option (list pystr) :=
  match next_steps state with Some v => v | None => Some [] end.

(** [state.get("current_step_index", 0)]; [None] is Python's [None]. *)
Definition get_index (state : AgentState) : option Z :=
  match current_step_index state with Some v => v | None => Some 0%Z end.

(** [lst[i]] on a Python list: a negative index counts from the end, an
    index out of range raises [IndexError]. *)
Definition py_index {A} (l : list A) (i : Z) : PyExc + A :=
  let j := if (i <? 0)%Z then (i + Z.of_nat (length l))%Z else i in
  match (if (j <? 0)%Z then None else nth_error l (Z.to_nat j)) with
  | Some x => inr x
  | None => inl (IndexError (py "list index out of range"))
  end.

(** [routing_logic] (the same function in nodes/router_node.py and in
    graphs/document_graph.py).  [index < len(steps)] evaluates
    [len(steps)] first, which raises [TypeError] on [None]; the comparison
    then raises [TypeError] on a [None] index. *)
Definition routing_logic (state : AgentState) : PyExc + pystr :=
  match get_steps state with
  | None => inl (TypeError (py "object of type 'NoneType' has no len()"))
  | Some steps =>
      match get_index state with
      | None => inl (TypeError (py "'<' not supported between instances of 'NoneType' and 'int'"))
      | Some index =>
          if (index <? Z.of_nat (length steps))%Z then
            match py_index steps index with
            | inl e => inl e
            | inr current_task =>
                let channel := py "to_" ++ current_task in
                if py_mem channel valid_channels then inr channel else inr (py "end")
            end
          else inr (py "end")
      end
  end.

(** Where a conditional edge leads: a node, or [END]. *)
Inductive Target := ToNode (node : pystr) | ToEND.

(** The path map given to [add_conditional_edges("node_router", ...)] in
    [create_graph]. *)
Definition ROUTER_PATHS : list (pystr * Target) :=
  [(py "to_summarize", ToNode (py "node_summarize"));
   (py "to_translate", ToNode (py "node_translate"));
   (py "to_analyze", ToNode (py "node_analyze"));
   (py "to_recommend", ToNode (py "node_recommend"));
   (py "to_ideate", ToNode (py "node_ideate"));
   (py "to_copywrite", ToNode (py "node_copywrite"));
   (py "to_compliance", ToNode (py "node_compliance"));
   (py "end", ToEND)].

(** The path map looked up at a channel. *)
Definition path_get (channel : pystr) : option Target :=
  option_map snd (find (fun kv => pystr_eqb (fst kv) channel) ROUTER_PATHS).

Section Run.
Context `{PyUnicode}.
Variable llm : pystr -> option pystr.

(** [node_body node state]: what task node [node] computes besides its step
    counter (its agent's output under its key, the [evaluations] list), or
    the exception its agent, validator or judge raises.  The agents are
    black boxes. *)
Variable node_body : pystr -> AgentState -> PyExc + gmap pystr pyval.

(** [router_node] of graphs/document_graph.py: it plans with
    [RouterAgent().decide] and does not group batches. *)
Definition graph_router_node (state : AgentState) : PyExc + AgentState :=
  if next_steps_set state then inr empty_update
  else match user_request state with
       | None => inl (KeyError (py "user_request"))
       | Some ur =>
           inr (mkAgentState None None None None (Some (Some (Router.decide llm ur)))
                  (Some (Some 0%Z)) None None ∅)
       end.

(** A task node ([summarization_node], ..., [compliance_node]): its body's
    entries and ["current_step_index": state.get("current_step_index", 0) + 1],
    computed after the body; [None + 1] raises [TypeError]. *)
Definition task_node (node : pystr) (state : AgentState) : PyExc + AgentState :=
  match node_body node state with
  | inl e => inl e
  | inr out =>
      match get_index state with
      | None => inl (TypeError (py "unsupported operand type(s) for +: 'NoneType' and 'int'"))
      | Some current_index =>
          inr (mkAgentState None None None None None
                 (Some (Some (current_index + 1)%Z)) None None out)
      end
  end.

(** The compiled graph from [node_router] on: the router node, its
    conditional edge, the chosen task node and the edge back to the router.
    The result carries the channels taken, in order, and the final state.
    [fuel] bounds the node runs; [None] is the run stopped at that bound
    (LangGraph's [recursion_limit], 25 super-steps by default, raises
    [GraphRecursionError] there). *)
Fixpoint run_from_router (fuel : nat) (state : AgentState)
  : option (PyExc + (list pystr * AgentState)) :=
  match fuel with
  | O => None
  | S fuel' =>
      match graph_router_node state with
      | inl e => Some (inl e)
      | inr u =>
          let state1 := apply_update u state in
          match routing_logic state1 with
          | inl e => Some (inl e)
          | inr channel =>
              match path_get channel with
              | None => Some (inl (KeyError channel))
              | Some ToEND => Some (inr ([channel], state1))
              | Some (ToNode node) =>
                  match fuel' with
                  | O => None
                  | S fuel'' =>
                      match task_node node state1 with
                      | inl e => Some (inl e)
                      | inr v =>
                          match run_from_router fuel'' (apply_update v state1) with
                          | Some (inr (trace, final)) => Some (inr (channel :: trace, final))
                          | other => other
                          end
                      end
                  end
              end
          end
      end
  end.

End Run.
End Graph.

(* ------------------------------------------------------------------ *)
(** ** [_execute_batch_async] (nodes/parallel_batch_node.py) *)

Module AsyncBatch.
Import Workflow.

Section Async.
Variable agent_run : pystr -> list (pystr * pyval) -> option pyval.

(** The loop over [zip(batch, results)]: an exception is recorded under
    ["{agent_name}_output"], a dict is merged with [output.update]. *)
Definition merge_gathered (batch : list pystr) (results : list (PyExc + gmap pystr pyval))
  : gmap pystr pyval :=
  fold_left (fun output (nr : pystr * (PyExc + gmap pystr pyval)) =>
               let (agent_name, result) := nr in
               match result with
               | inl e => <[agent_name ++ py "_output" := VDict [(py "error", VStr (Api.exc_str e))]]> output
               | inr r => r ∪ output
               end)
            (zip batch results) ∅.

(** [_execute_batch_async]: [asyncio.gather(..., return_exceptions=True)]
    gives the results of the [_execute_agent] calls in batch order. *)
Definition execute_batch_async (batch : list pystr) (state : AgentState) : gmap pystr pyval :=
  merge_gathered batch (map (fun agent_name => inr (execute_agent agent_run agent_name state)) batch).

End Async.
End AsyncBatch.

(* ------------------------------------------------------------------ *)
(** ** The timeout path of [_execute_batch_parallel]
    (nodes/parallel_batch_node.py) *)

Module BatchTimeout.
Import Workflow.

Section Timed.
Variable agent_run : pystr -> list (pystr * pyval) -> option pyval.

(** [timed_out i]: [future.result(timeout=120)] on the [i]-th submitted
    future raises [TimeoutError] (its agent is still running 120 seconds
    after the loop starts waiting for it).  The [except TimeoutError] branch
    only logs, so that agent's result is not merged.  [_execute_agent] never
    raises, so the [except Exception] branch is not reached. *)
Variable timed_out : nat -> bool.

(** The loop [for future in futures: ...] from the [i]-th future on; the
    [futures] dict keeps submission order. *)
Fixpoint collect_from (i : nat) (batch : list pystr) (state : AgentState)
    (results : gmap pystr pyval) : gmap pystr pyval :=
  match batch with
  | [] => results
  | agent_name :: rest =>
      collect_from (S i) rest state
        (if timed_out i then results
         else execute_agent agent_run agent_name state ∪ results)
  end.

(** [_execute_batch_parallel]: [ThreadPoolExecutor(max_workers=len(batch))]
    raises [ValueError] on an empty batch. *)
Definition execute_batch_parallel (batch : list pystr) (state : AgentState)
  : PyExc + gmap pystr pyval :=
  match batch with
  | [] => inl (ValueError (py "max_workers must be greater than 0"))
  | _ => inr (collect_from 0 batch state ∅)
  end.

End Timed.
End BatchTimeout.

(* ------------------------------------------------------------------ *)
(** ** Response cleaning (workflows/process_document.py) *)

Module ResponseCleaning.

(** [d["k"]] / [d.get("k")] on a dict: the entry of key [k]. *)
Definition dict_get (k : pystr) (d : list (pystr * pyval)) : option pyval :=
  option_map snd (find (fun kv => pystr_eqb (fst kv) k) d).

Section Clean.

(** [str(v)] of a value that is not a [str]. *)
Variable str_of : pyval -> pystr.

(** [_extract_agent_output] *)
Fixpoint extract_agent_output (value : pyval) : pystr :=
  match value with
  | VNone => []
  | VStr s => s
  | VDict d =>
      (fix lookup (d' : list (pystr * pyval)) : pystr :=
         match d' with
         | [] => str_of value
         | (k, x) :: rest =>
             if pystr_eqb k (py "output") then extract_agent_output x else lookup rest
         end) d
  | _ => str_of value
  end.

(** [n] nested [{"output": ...}] dicts around [v]. *)
Fixpoint wrap_output (n : nat) (v : pyval) : pyval :=
  match n with
  | O => v
  | S n' => VDict [(py "output", wrap_output n' v)]
  end.

Definition string_fields : list pystr :=
  map py ["summary"; "analysis"; "recommendation"; "ideation"; "copywriting";
          "translation"]%string.

Definition internal_fields : list pystr :=
  map py ["agent_outputs"; "agent_metadata"; "agent_errors"; "agent_evaluations";
          "pending_agents"]%string.

(** [_clean_response_state] on the final state (a [dict]). *)
Definition clean_response_state (state : gmap pystr pyval) : gmap pystr pyval :=
  let cleaned := state in
  let cleaned :=
    fold_left (fun c field =>
                 match c !! field with
                 | Some v => <[field := VStr (extract_agent_output v)]> c
                 | None => c
                 end) string_fields cleaned in
  let cleaned :=
    match cleaned !! py "compliance" with
    | Some (VDict d) =>
        match dict_get (py "output") d with
        | Some o => <[py "compliance" := o]> cleaned
        | None => cleaned
        end
    | _ => cleaned
    end in
  fold_left (fun c field => delete field c) internal_fields cleaned.

End Clean.
End ResponseCleaning.

(* ------------------------------------------------------------------ *)
(** ** [OutputValidator.validate_compliance] (utils/output_validator.py) *)

Module OutputValidator.
Import Compliance ResponseCleaning.

(** [v in {"a", "b", ...}] for a set of strings: a [list] or [dict] is
    unhashable and raises [TypeError]. *)
Definition in_str_set (v : pyval) (set : list pystr) : PyExc + bool :=
  match v with
  | VStr s => inr (py_mem s set)
  | VList _ => inl (TypeError (py "unhashable type: 'list'"))
  | VDict _ => inl (TypeError (py "unhashable type: 'dict'"))
  | _ => inr false
  end.

(** [isinstance(v, int)] ([bool] is a subclass of [int]), with the value. *)
Definition as_int (v : pyval) : option Z :=
  match v with
  | VInt z => Some z
  | VBool b => Some (if b then 1 else 0)
  | _ => None
  end.

(** [set(keys).issubset(d)] *)
Definition has_keys (keys : list pystr) (d : list (pystr * pyval)) : bool :=
  forallb (fun k => bool_decide (is_Some (dict_get k d))) keys.

(** [d[k]] once [k] is known to be present. *)
Definition dict_val (k : pystr) (d : list (pystr * pyval)) : pyval :=
  default VNone (dict_get k d).

(** The [for issue in issues] loop. *)
Fixpoint validate_issues (issues : list pyval) : PyExc + bool :=
  match issues with
  | [] => inr true
  | VDict d :: rest =>
      if negb (has_keys (map py ["severity"; "match"; "description"]%string) d) then inr false
      else match in_str_set (dict_val (py "severity") d)
                   (map py ["block"; "review"; "privacy"]%string) with
           | inl e => inl e
           | inr false => inr false
           | inr true =>
               match dict_val (py "match") d, dict_val (py "description") d with
               | VStr _, VStr _ => validate_issues rest
               | _, _ => inr false
               end
           end
  | _ :: _ => inr false
  end.

(** [validate_compliance]; [inl] is the exception it raises. *)
Definition validate_compliance (output : pyval) : PyExc + bool :=
  match output with
  | VDict d =>
      if negb (has_keys (map py ["status"; "issues"; "issue_count"; "risk_score"]%string) d)
      then inr false
      else match in_str_set (dict_val (py "status") d) (map py ["ok"; "review"; "block"]%string) with
           | inl e => inl e
           | inr false => inr false
           | inr true =>
               match dict_val (py "issues") d with
               | VList issues =>
                   match validate_issues issues with
                   | inl e => inl e
                   | inr false => inr false
                   | inr true =>
                       match as_int (dict_val (py "issue_count") d) with
                       | None => inr false
                       | Some c =>
                           if negb (c =? Z.of_nat (length issues)) then inr false
                           else match as_int (dict_val (py "risk_score") d) with
                                | None => inr false
                                | Some r => inr (negb (r <? 0))
                                end
                       end
                   end
               | _ => inr false
               end
           end
  | _ => inr false
  end.

(** The dict [ComplianceAgent.run] returns, key by key in source order. *)
Definition issue_dict (i : Issue) : pyval :=
  VDict [(py "severity", VStr (issue_severity i)); (py "match", VStr (issue_match i));
         (py "description", VStr (issue_description i))].

Definition report_dict (r : Report) : pyval :=
  VDict [(py "status", VStr (status r)); (py "issues", VList (map issue_dict (issues r)));
         (py "issue_count", VInt (Z.of_nat (issue_count r)));
         (py "risk_score", VInt (risk_score r))].

End OutputValidator.

(* ------------------------------------------------------------------ *)
(** ** Text cleaning (utils/text_utils.py, tools/validators.py) *)

Module TextTools.
Import Compliance.

Section Tools.
Context `{PyUnicode}.

(** [clean_extra_whitespace]: [re.sub(r'\s+', ' ', text).strip()]. *)
Definition clean_extra_whitespace (text : pystr) : pystr :=
  py_strip (collapse_ws false text).

(** [unicodedata.normalize("NFKC", .)]: a table of its own. *)
Variable nfkc : pystr -> pystr.

(** The class [[\x00-\x1F\x7F-\x9F]]. *)
Definition is_control (c : Z) : bool :=
  ((0 <=? c) && (c <=? 31)) || ((127 <=? c) && (c <=? 159)).

(** The class [[•◦▪►]]. *)
Definition BULLETS : list Z := [8226; 9702; 9642; 9658].

Definition is_bullet (c : Z) : bool := existsb (Z.eqb c) BULLETS.

(** [re.sub(r"[\x00-\x1F\x7F-\x9F]", " ", text)] *)
Definition sub_controls (text : pystr) : pystr :=
  map (fun c => if is_control c then 32 else c) text.

(** [re.sub(r"[•◦▪►]+", " ", text)]; [in_run] is set inside a run. *)
Fixpoint sub_bullets (in_run : bool) (s : pystr) : pystr :=
  match s with
  | [] => []
  | c :: t =>
      if is_bullet c then
        (if in_run then sub_bullets true t else 32 :: sub_bullets true t)
      else c :: sub_bullets false t
  end.

(** [BriefValidator.sanitize_text] *)
Definition sanitize_text (text : pystr) : pystr :=
  match text with
  | [] => []
  | _ =>
      let text := nfkc text in
      let text := sub_controls text in
      let text := sub_bullets false text in
      let text := collapse_ws false text in
      py_strip text
  end.

(** [BriefValidator.REQUIRED_KEYWORDS] *)
Definition REQUIRED_KEYWORDS : list pystr :=
  map py ["objective"; "goal"; "strategy"; "purpose"; "vision"; "mission";
          "target"; "audience"; "persona"; "demographic"; "segment"; "customer";
          "campaign"; "message"; "value proposition"; "positioning"; "branding";
          "tone"; "voice"; "creative";
          "budget"; "cost"; "spend"; "investment"; "allocation";
          "kpi"; "metric"; "performance"; "roi"; "conversion"; "ctr";
          "channel"; "platform"; "social"; "digital"; "media plan";
          "timeline"; "deadline"; "schedule"; "milestone"; "launch";
          "requirement"; "constraint"; "guideline"; "compliance"; "approval"]%string.

Definition MIN_KEYWORD_MATCH : nat := 4.

(** [BriefValidator.is_valid_brief] *)
Definition is_valid_brief (text : pystr) : bool :=
  match text with
  | [] => false
  | _ =>
      if (length text <? 100)%nat then false
      else
        let text_lower := py_lower text in
        let matches := List.filter (fun word => py_in word text_lower) REQUIRED_KEYWORDS in
        negb (length matches <? MIN_KEYWORD_MATCH)%nat
  end.

(** No whitespace character but the space, never two whitespace characters
    in a row, and none at either end. *)
Fixpoint single_spaced (s : pystr) : bool :=
  match s with
  | [] => true
  | c :: t =>
      (if uc_isspace c
       then (c =? 32) && match t with d :: _ => negb (uc_isspace d) | [] => true end
       else true) && single_spaced t
  end.

Definition space_opt (c : option Z) : bool :=
  match c with Some x => uc_isspace x | None => false end.

Definition ws_normal (s : pystr) : bool :=
  single_spaced s && negb (space_opt (head s)) && negb (space_opt (last s)).

End Tools.
End TextTools.

(** The keyword categories of [_keyword_fallback] paired with their task, in
    the order of the plan it returns. *)
Module FallbackOrder.
Import Router.

Definition ordered_categories : list (list pystr * pystr) :=
  [(summary_words, summarize); (translate_words, translate); (analyze_words, analyze);
   (recommend_words, recommend); (ideate_words, ideate); (copywrite_words, copywrite);
   (compliance_words, compliance)].

End FallbackOrder.

(** Concrete inputs for the graph. *)
Module GraphInputs.
Import Workflow.

(** The state after extraction and refinement, before the router. *)
Definition fresh_state : AgentState :=
  mkAgentState (Some (py "Brief: launch campaign")) (Some (py "Summarize and translate"))
    (Some (py "en")) None None None None None ∅.

(** A model call that fails, and task nodes that return no entries. *)
Definition no_llm (_ : pystr) : option pystr := None.
Definition empty_body (_ : pystr) (_ : AgentState) : PyExc + gmap pystr pyval := inr ∅.

(** Task nodes where the translation node raises. *)
Definition translator_fails (node : pystr) (_ : AgentState) : PyExc + gmap pystr pyval :=
  if pystr_eqb node (py "node_translate") then inl (ValueError (py "translation failed"))
  else inr ∅.

End GraphInputs.


(* ================================================================== *)
(** * Properties *)

Module PlannerFacts.
Import Planner.

Lemma concat_flush bs cur : concat (flush bs cur) = concat bs ++ cur.
Proof.
  destruct cur; simpl; [by rewrite app_nil_r |].
  by rewrite concat_app; simpl; rewrite app_nil_r.
Qed.

Lemma concat_group_loop tasks bs cur :
  concat (group_loop tasks bs cur) = concat bs ++ cur ++ tasks.
Proof.
  revert bs cur; induction tasks as [|t ts IH]; intros bs cur; simpl.
  - by rewrite concat_flush, app_nil_r.
  - destruct (pystr_eqb t translate); [|destruct (pystr_eqb t compliance)];
      rewrite IH; rewrite ?concat_app, ?concat_flush; simpl;
      rewrite ?app_nil_r, <- ?app_assoc; done.
Qed.

Lemma alternates_snoc bs b :
  alternates bs = true ->
  (forall x, last bs = Some x -> solo_batch x || solo_batch b = true) ->
  alternates (bs ++ [b]) = true.
Proof.
  induction bs as [|b1 [|b2 bs'] IH]; intros Halt Hlast; simpl in *; [done| |].
  - by rewrite (Hlast b1 eq_refl).
  - apply andb_true_iff in Halt as [H12 Hrest].
    rewrite H12; simpl. apply IH; [done|].
    intros x Hx. apply Hlast. destruct bs'; simpl in *; done.
Qed.

Lemma alternates_replace_last bs c c' :
  alternates (bs ++ [c]) = true -> solo_batch c = solo_batch c' ->
  alternates (bs ++ [c']) = true.
Proof.
  induction bs as [|b1 [|b2 bs'] IH]; intros Halt Hs; simpl in *; [done| |].
  - by rewrite <- Hs.
  - apply andb_true_iff in Halt as [H12 Hrest]. rewrite H12. by apply IH.
Qed.

Lemma alternates_split bs1 b1 b2 bs2 :
  alternates (bs1 ++ b1 :: b2 :: bs2) = true ->
  solo_batch b1 = true \/ solo_batch b2 = true.
Proof.
  induction bs1 as [|x [|y bs1'] IH]; intros H; simpl in *.
  - apply andb_true_iff in H as [H _]. by apply orb_true_iff.
  - apply andb_true_iff in H as [_ H]. apply andb_true_iff in H as [H _].
    by apply orb_true_iff.
  - apply andb_true_iff in H as [_ H]. by apply IH.
Qed.

Lemma runs_alone_solo t : runs_alone t = true -> solo_batch [t] = true.
Proof. done. Qed.

Lemma solo_not_parallel cur :
  cur <> [] -> Forall (fun t => runs_alone t = false) cur -> solo_batch cur = false.
Proof.
  intros Hne Hf. destruct cur as [|t [|t' cur]]; [done| |done].
  simpl. by inversion Hf.
Qed.

Lemma last_app_single {A} (l : list A) (x : A) : last (l ++ [x]) = Some x.
Proof. induction l as [|y [|z l] IH]; simpl in *; done. Qed.

Lemma loop_inv_flush_solo bs cur t :
  loop_inv bs cur -> runs_alone t = true ->
  loop_inv (flush bs cur ++ [[t]]) [].
Proof.
  intros (Hbs & Hcur & Halt & Hlast) Ht. split_and!.
  - apply Forall_app; split; [|by constructor; [left|]].
    destruct cur; simpl; [done|]. apply Forall_app; split; [done|].
    constructor; [|done]. right. split; [done|done].
  - constructor.
  - simpl. apply alternates_snoc; [done|].
    intros x _. change (solo_batch [t]) with (runs_alone t). by rewrite Ht, orb_true_r.
  - intros _ x Hx. rewrite last_app_single in Hx. injection Hx as <-. done.
Qed.

Lemma loop_inv_push bs cur t :
  loop_inv bs cur -> runs_alone t = false ->
  loop_inv bs (cur ++ [t]).
Proof.
  intros (Hbs & Hcur & Halt & Hlast) Ht. split_and!.
  - done.
  - apply Forall_app; split; [done|]. by constructor.
  - assert (Hf : flush bs (cur ++ [t]) = bs ++ [cur ++ [t]]) by (by destruct cur).
    rewrite Hf. destruct cur as [|c cur'].
    + apply alternates_snoc; [done|].
      intros x Hx. by rewrite (Hlast eq_refl x Hx).
    + apply (alternates_replace_last _ (c :: cur')); [done|].
      assert (Hp : Forall (fun t => runs_alone t = false) ((c :: cur') ++ [t]))
        by (apply Forall_app; split; [done|by constructor]).
      rewrite (solo_not_parallel (c :: cur')), (solo_not_parallel ((c :: cur') ++ [t])); done.
  - intros Hnil. by apply app_eq_nil in Hnil as [_ ?].
Qed.

Lemma loop_inv_result tasks bs cur :
  loop_inv bs cur ->
  Forall batch_shape (group_loop tasks bs cur) /\
  alternates (group_loop tasks bs cur) = true.
Proof.
  revert bs cur; induction tasks as [|t ts IH]; intros bs cur Hinv; simpl.
  - destruct Hinv as (Hbs & Hcur & Halt & _). split; [|done].
    destruct cur; simpl; [done|]. apply Forall_app; split; [done|].
    constructor; [|done]. right; done.
  - destruct (pystr_eqb t translate) eqn:Et; [|destruct (pystr_eqb t compliance) eqn:Ec].
    + apply IH, loop_inv_flush_solo; [done|]. unfold runs_alone. by rewrite Et.
    + apply IH, loop_inv_flush_solo; [done|]. unfold runs_alone. by rewrite Ec, orb_true_r.
    + apply IH, loop_inv_push; [done|]. unfold runs_alone. by rewrite Et, Ec.
Qed.

End PlannerFacts.

Module RouterFacts.
Import Router.

Lemma filter_tasks_valid `{PyUnicode} (tasks : list pystr) :
  Forall (fun t => t ∈ valid_steps) (filter_tasks tasks).
Proof.
  unfold filter_tasks.
  assert (Hgen : forall acc, Forall (fun t => t ∈ valid_steps) acc ->
    Forall (fun t => t ∈ valid_steps)
      (fold_left (fun filtered_tasks task =>
         match find (fun valid => py_in valid task && negb (py_mem valid filtered_tasks))
                    valid_steps with
         | Some valid => filtered_tasks ++ [valid]
         | None => filtered_tasks
         end) tasks acc)).
  { induction tasks as [|t ts IH]; intros acc Hacc; cbn [fold_left]; [done|].
    apply IH. match goal with |- context [find ?f ?l] => destruct (find f l) eqn:Hf end; [|done].
    apply Forall_app; split; [done|]. constructor; [|done].
    apply list_elem_of_In. by apply find_some in Hf as [? _]. }
  apply Hgen. constructor.
Qed.

Lemma keyword_fallback_valid `{PyUnicode} (ur : pystr) :
  keyword_fallback ur <> [] /\ Forall (fun t => t ∈ valid_steps) (keyword_fallback ur).
Proof.
  unfold keyword_fallback.
  destruct (any_in translate_words _), (any_in analyze_words _),
    (any_in summary_words _), (any_in recommend_words _), (any_in ideate_words _),
    (any_in copywrite_words _), (any_in compliance_words _);
    vm_compute; split; try discriminate; repeat constructor.
Qed.

End RouterFacts.


Module WorkflowFacts.
Import Workflow.

Lemma group_shape (T : list pystr) :
  Forall Planner.batch_shape (Planner.group_parallel_agents T).
Proof.
  assert (Hinv : Planner.loop_inv [] []) by (split_and!; by try constructor).
  destruct T; [constructor|].
  by apply (PlannerFacts.loop_inv_result (_ :: _) [] []).
Qed.

Lemma group_nonempty_batches (T : list pystr) :
  Forall (fun b => b <> []) (Planner.group_parallel_agents T).
Proof.
  eapply Forall_impl; [apply group_shape|].
  intros b [Hsolo | [Hne _]]; [|done]. by destruct b.
Qed.

Lemma apply_empty_update s : apply_update empty_update s = s.
Proof. destruct s; unfold apply_update; simpl. by rewrite (left_id ∅ (∪)). Qed.

Lemma assoc_get_not_in (k : pystr) (d : list (pystr * pystr)) :
  k ∉ map fst d -> assoc_get k d = None.
Proof.
  intros Hk. unfold assoc_get.
  destruct (find _ d) as [[k' v]|] eqn:Hf; [|done].
  apply find_some in Hf as [Hin Heq]. simpl in Heq.
  unfold pystr_eqb in Heq. apply bool_decide_eq_true in Heq. subst k'.
  exfalso. apply Hk. apply list_elem_of_In, in_map_iff. by exists (k, v).
Qed.

Lemma collect_results_skip agent_run name s pre post :
  execute_agent agent_run name s = ∅ ->
  collect_results agent_run (pre ++ name :: post) s = collect_results agent_run (pre ++ post) s.
Proof.
  intros Hname. unfold collect_results.
  rewrite !fold_left_app. simpl. rewrite Hname. by rewrite (left_id ∅ (∪)).
Qed.

(** One executor call on a state whose batches are all non-empty and whose
    cursor is within bounds. *)
Lemma executor_step agent_run s bs c :
  parallel_batches s = Some bs -> current_batch_index s = Some c ->
  (c <= length bs)%nat -> Forall (fun b => b <> []) bs ->
  exists s' results,
    parallel_batch_executor agent_run s = inr (s', results) /\
    parallel_batches s' = Some bs /\
    ((c < length bs)%nat -> current_batch_index s' = Some (S c)) /\
    (c = length bs -> s' = s /\ results = ∅).
Proof.
  intros Hb Hc Hle Hne. unfold parallel_batch_executor. rewrite Hb, Hc. simpl.
  destruct (length bs <=? c)%nat eqn:Hlen.
  - apply Nat.leb_le in Hlen. exists s, ∅. split_and!; try done; lia.
  - apply Nat.leb_gt in Hlen.
    assert (Hcur : nth c bs [] <> []).
    { rewrite Forall_forall in Hne. apply Hne, list_elem_of_In, nth_In. lia. }
    destruct (nth c bs []) as [|a [|a' rest]] eqn:Hn; [done| |].
    + eexists _, _. split_and!; [reflexivity|done|done|lia].
    + eexists _, _. split_and!; [reflexivity|done|done|lia].
Qed.

Lemma reachable_inv `{PyUnicode} agent_run llm s :
  reachable agent_run llm s ->
  exists bs c, parallel_batches s = Some bs /\ current_batch_index s = Some c /\
    (c <= length bs)%nat /\ Forall (fun b => b <> []) bs.
Proof.
  induction 1 as [s u Hns Hr | s s' results Hreach IH Hexec].
  - unfold router_node in Hr. rewrite Hns in Hr.
    destruct (user_request s); [|done]. injection Hr as <-.
    eexists _, 0%nat. split_and!; [done|done|lia|apply group_nonempty_batches].
  - destruct IH as (bs & c & Hb & Hc & Hle & Hne).
    destruct (executor_step agent_run s bs c Hb Hc Hle Hne)
      as (s1 & r1 & Hex & Hb1 & Hlt & Heq).
    rewrite Hex in Hexec. injection Hexec as <- <-.
    destruct (decide (c = length bs)) as [Hl|Hl].
    + destruct (Heq Hl) as [-> ->]. by exists bs, c.
    + exists bs, (S c). simpl. split_and!; [done| |lia|done]. apply Hlt. lia.
Qed.

End WorkflowFacts.


Module ComplianceFacts.
Import Compliance.

Lemma value_inj a b : value a = value b -> a = b.
Proof. destruct a, b; vm_compute; congruence. Qed.

Lemma has_severity_value sv sv' i :
  issue_severity i = value sv -> has_severity sv' i = bool_decide (sv = sv').
Proof.
  intros Hi. unfold has_severity, pystr_eqb. rewrite Hi.
  apply bool_decide_ext. split; [apply value_inj|by intros ->].
Qed.


Lemma calculate_risk_sum (l : list Issue) :
  Forall (fun i => exists sv, issue_severity i = value sv) l ->
  calculate_risk l =
    inr (5 * count_severity BLOCK l + 3 * count_severity PRIVACY l + count_severity REVIEW l).
Proof.
  induction 1 as [|i l [sv Hi] _ IH]; [done|].
  unfold count_severity in *. cbn [calculate_risk List.filter].
  rewrite Hi, IH, !(has_severity_value sv _ i Hi).
  destruct sv; cbn; f_equal; repeat case_bool_decide; try congruence; cbn [length snd]; lia.
Qed.

Lemma collect_issues_severity `{PyUnicode} (t : pystr) :
  Forall (fun i => exists sv, issue_severity i = value sv) (collect_issues t).
Proof.
  unfold collect_issues. apply Forall_flat_map. apply Forall_forall. intros rule _.
  apply Forall_forall. intros i (m & -> & _)%list_elem_of_fmap. by eexists.
Qed.

Lemma run_report `{PyUnicode} (content : pystr) :
  run content =
    inr (let I := collect_issues (normalize content) in
         mkReport (resolve_status I) I (length I)
           (5 * count_severity BLOCK I + 3 * count_severity PRIVACY I + count_severity REVIEW I)).
Proof. unfold run. by rewrite calculate_risk_sum by apply collect_issues_severity. Qed.

Lemma existsb_has_severity sv l :
  existsb (has_severity sv) l = true <-> Exists (fun i => issue_severity i = value sv) l.
Proof.
  rewrite existsb_exists, Exists_exists. unfold has_severity, pystr_eqb.
  setoid_rewrite bool_decide_eq_true. setoid_rewrite list_elem_of_In. done.
Qed.

Lemma resolve_status_cases l :
  Forall (fun i => exists sv, issue_severity i = value sv) l ->
  (resolve_status l = py "ok" <-> l = []) /\
  (resolve_status l = value BLOCK <-> Exists (fun i => issue_severity i = value BLOCK) l) /\
  (l <> [] -> ~ Exists (fun i => issue_severity i = value BLOCK) l ->
     resolve_status l = value REVIEW) /\
  resolve_status l <> value PRIVACY.
Proof.
  intros _. unfold resolve_status.
  destruct (existsb (has_severity BLOCK) l) eqn:Eb.
  - apply existsb_has_severity in Eb.
    split_and!; [split; [vm_compute; congruence|intros ->; inversion Eb]|done|done|vm_compute; congruence].
  - assert (Hnb : ~ Exists (fun i => issue_severity i = value BLOCK) l).
    { by rewrite <- existsb_has_severity, Eb. }
    destruct (existsb (has_severity PRIVACY) l) eqn:Ep.
    + split_and!; [split; [vm_compute; congruence|intros ->; done]
                  |split; [vm_compute; congruence|done]|done|vm_compute; congruence].
    + destruct l as [|i l].
      * split_and!; [done|split; [vm_compute; congruence|inversion 1]|done|vm_compute; congruence].
      * split_and!; [split; [vm_compute; congruence|done]
                    |split; [vm_compute; congruence|done]|done|vm_compute; congruence].
Qed.


Section Text.
Context `{PyUnicode}.

Lemma py_lower_app (a b : pystr) : py_lower (a ++ b) = py_lower a ++ py_lower b.
Proof. unfold py_lower. apply flat_map_app. Qed.

Lemma collapse_ws_app b (A R : pystr) :
  collapse_ws b (A ++ R) =
  collapse_ws b A ++ collapse_ws (match last A with Some c => uc_isspace c | None => b end) R.
Proof.
  revert b. induction A as [|c A IH]; intros b; [done|].
  rewrite last_cons. cbn [app collapse_ws].
  destruct (uc_isspace c) eqn:Ec; [destruct b|];
    rewrite IH; destruct (last A); cbn; rewrite ?Ec; done.
Qed.

Lemma collapse_ws_nonspace b c R :
  uc_isspace c = false -> collapse_ws b (c :: R) = c :: collapse_ws false R.
Proof. intros Hc. simpl. by rewrite Hc. Qed.

Lemma collapse_ws_space c R :
  uc_isspace c = true -> collapse_ws false (c :: R) = 32 :: collapse_ws true R.
Proof. intros Hc. simpl. by rewrite Hc. Qed.

Lemma collapse_ws_false_nil R : collapse_ws false R = [] -> R = [].
Proof. destruct R as [|c R]; [done|]. simpl. by destruct (uc_isspace c). Qed.

(** The collapsed text ends in a non-word character, or is empty, when the
    text does. *)
Lemma collapse_ws_last_nonword (Hw32 : uc_isword 32 = false) b (N : pystr) :
  (forall c, last N = Some c -> uc_isword c = false) ->
  forall c, last (collapse_ws b N) = Some c -> uc_isword c = false.
Proof.
  revert b. induction N as [|d N IH]; intros b HN c Hc; [done|].
  rewrite last_cons in HN.
  assert (HN' : forall c, last N = Some c -> uc_isword c = false).
  { intros c' Hc'. apply HN. by rewrite Hc'. }
  cbn [collapse_ws] in Hc.
  destruct (uc_isspace d) eqn:Ed; [destruct b|].
  - exact (IH true HN' c Hc).
  - rewrite last_cons in Hc.
    destruct (last (collapse_ws true N)) eqn:E; [injection Hc as <-; exact (IH true HN' _ E)|].
    by injection Hc as <-.
  - rewrite last_cons in Hc.
    destruct (last (collapse_ws false N)) eqn:E; [injection Hc as <-; exact (IH false HN' _ E)|].
    injection Hc as <-. apply last_None, collapse_ws_false_nil in E. subst N. by apply HN.
Qed.

Lemma lstrip_app_nonspace (A R : pystr) c :
  uc_isspace c = false -> lstrip (A ++ c :: R) = lstrip A ++ c :: R.
Proof.
  intros Hc. induction A as [|d A IH]; [simpl; by rewrite Hc|].
  cbn [app lstrip]. destruct (uc_isspace d); [done|done].
Qed.

Lemma lstrip_last (N : pystr) c : last (lstrip N) = Some c -> last N = Some c.
Proof.
  induction N as [|d N IH]; [done|]. cbn [lstrip].
  destruct (uc_isspace d); [|done].
  intros Hc. rewrite last_cons, (IH Hc). done.
Qed.

(** Stripping text around a middle part that starts and ends with a
    non-space character. *)
Lemma py_strip_middle (N X Q : pystr) c X' d :
  X = c :: X' -> uc_isspace c = false -> last X = Some d -> uc_isspace d = false ->
  exists Q', py_strip (N ++ X ++ Q) = lstrip N ++ X ++ Q'.
Proof.
  intros HX Hc Hd Hsd. apply last_Some in Hd as [Y HY].
  exists (rev (lstrip (rev Q))). unfold py_strip.
  assert (E1 : lstrip (N ++ X ++ Q) = lstrip N ++ X ++ Q).
  { rewrite HX. exact (lstrip_app_nonspace N (X' ++ Q) c Hc). }
  assert (E2 : rev (lstrip N ++ X ++ Q) = rev Q ++ d :: rev Y ++ rev (lstrip N)).
  { rewrite HY, !rev_app_distr. cbn. by rewrite <- !app_assoc. }
  rewrite E1, E2, lstrip_app_nonspace by done.
  rewrite HY, !rev_app_distr. cbn. rewrite rev_app_distr, !rev_involutive, <- !app_assoc. done.
Qed.

Lemma scan_nonempty (alts : list pystr) (A : pystr) :
  forall prev B n fuel,
  match_at alts (match last A with Some c => Some c | None => prev end) B = Some n ->
  (length A < fuel)%nat ->
  scan fuel alts prev (A ++ B) <> [].
Proof.
  induction A as [|c A IH]; intros prev B n fuel Hm Hf;
    (destruct fuel as [|fuel]; [simpl in Hf; lia|]).
  - change (match last (@nil Z) with Some c => Some c | None => prev end) with prev in Hm.
    cbn [app scan]. rewrite Hm. discriminate.
  - cbn [app scan]. destruct (match_at alts prev (c :: A ++ B)); [discriminate|].
    apply (IH (Some c) B n); [|simpl in Hf; lia].
    rewrite last_cons in Hm. by destruct (last A).
Qed.

Lemma match_group_some (alts : list pystr) a prev (s : pystr) :
  a ∈ alts -> ieq_prefix a s = true ->
  word_boundary (match length a with 0%nat => prev | S k => nth_error s k end)
                (nth_error s (length a)) = true ->
  is_Some (match_group alts prev s).
Proof.
  intros Ha Hp Hb. induction alts as [|a' alts IH]; [by apply elem_of_nil in Ha|].
  cbn [match_group].
  destruct (ieq_prefix a' s && _) eqn:E; [by eexists|].
  apply elem_of_cons in Ha as [->|Ha]; [|by apply IH].
  by rewrite Hp, Hb in E.
Qed.

End Text.

Section SellPersonalData.
Context `{PyUnicode}.
Hypothesis Hlow_az : forall c, 97 <= c <= 122 -> uc_lower c = [c].
Hypothesis Hlow_sp : uc_lower 32 = [32].
Hypothesis Hsp_sp : uc_isspace 32 = true.
Hypothesis Hsp_az : forall c, 97 <= c <= 122 -> uc_isspace c = false.
Hypothesis Hw_az : forall c, 97 <= c <= 122 -> uc_isword c = true.
Hypothesis Hw_sp : uc_isword 32 = false.
Hypothesis Hieq_refl : forall c, uc_ieq c c = true.
Hypothesis Hlow_nonword :
  forall c, uc_isword c = false -> exists l d, uc_lower c = l ++ [d] /\ uc_isword d = false.

Lemma spd_chars :
  py "sell personal data" =
  [115; 101; 108; 108; 32; 112; 101; 114; 115; 111; 110; 97; 108; 32; 100; 97; 116; 97].
Proof. reflexivity. Qed.

Lemma lower_spd : py_lower (py "sell personal data") = py "sell personal data".
Proof.
  rewrite spd_chars. unfold py_lower. cbn [flat_map app].
  rewrite Hlow_sp, !Hlow_az by lia. reflexivity.
Qed.

Lemma collapse_spd b (R : pystr) :
  collapse_ws b (py "sell personal data" ++ R) = py "sell personal data" ++ collapse_ws false R.
Proof.
  rewrite spd_chars. cbn [app].
  repeat first [ rewrite collapse_ws_nonspace by (apply Hsp_az; lia)
               | rewrite collapse_ws_space by exact Hsp_sp ].
  reflexivity.
Qed.

Lemma lower_last_nonword (pre : pystr) :
  (forall c, last pre = Some c -> uc_isword c = false) ->
  forall c, last (py_lower pre) = Some c -> uc_isword c = false.
Proof.
  intros Hpre c Hc. destruct (last pre) as [z|] eqn:E.
  - apply last_Some in E as [p' ->].
    destruct (Hlow_nonword z (Hpre z eq_refl)) as (l & d & Hl & Hd).
    rewrite py_lower_app in Hc. unfold py_lower at 2 in Hc. cbn [flat_map] in Hc.
    rewrite Hl, app_nil_r, app_assoc, last_snoc in Hc. by injection Hc as <-.
  - apply last_None in E. subst pre. done.
Qed.

Lemma normalize_around (pre post : pystr) :
  (forall c, last pre = Some c -> uc_isword c = false) ->
  exists N Q,
    normalize (pre ++ py "sell personal data" ++ post) = N ++ py "sell personal data" ++ Q /\
    (forall c, last N = Some c -> uc_isword c = false).
Proof.
  intros Hpre. unfold normalize.
  rewrite !py_lower_app, lower_spd, collapse_ws_app, collapse_spd.
  destruct (py_strip_middle (collapse_ws false (py_lower pre)) (py "sell personal data")
              (collapse_ws false (py_lower post)) 115
              [101; 108; 108; 32; 112; 101; 114; 115; 111; 110; 97; 108; 32; 100; 97; 116; 97] 97)
    as [Q HQ]; [reflexivity|apply Hsp_az; lia|reflexivity|apply Hsp_az; lia|].
  exists (lstrip (collapse_ws false (py_lower pre))), Q. split; [exact HQ|].
  intros c Hc. apply lstrip_last in Hc.
  exact (collapse_ws_last_nonword Hw_sp false _ (lower_last_nonword pre Hpre) c Hc).
Qed.

Lemma ieq_prefix_app (a s : pystr) : ieq_prefix a (a ++ s) = true.
Proof. induction a as [|c a IH]; [done|]. cbn. by rewrite Hieq_refl, IH. Qed.

Lemma block_issue_around (pre post : pystr) :
  (forall c, last pre = Some c -> uc_isword c = false) ->
  Exists (fun i => issue_severity i = value BLOCK)
    (collect_issues (normalize (pre ++ py "sell personal data" ++ post))).
Proof.
  intros Hpre. destruct (normalize_around pre post Hpre) as (N & Q & -> & HN).
  unfold collect_issues, RULES. cbn [flat_map severity pattern description].
  apply Exists_app. left.
  set (alts := map py ["spam"; "cookie stuffing"; "harvest"; "sell data"; "sell personal"]%string).
  assert (Hgroup : is_Some (match_group alts (match last N with Some c => Some c | None => None end)
                              (py "sell personal data" ++ Q))).
  { apply (match_group_some alts (py "sell personal")).
    - apply (bool_decide_unpack _). vm_compute. reflexivity.
    - exact (ieq_prefix_app (py "sell personal") (py " data" ++ Q)).
    - rewrite spd_chars. assert (Hl : length (py "sell personal") = 13%nat) by reflexivity.
      rewrite Hl. cbn. unfold word_boundary, is_word_opt. rewrite Hw_sp, Hw_az by lia. reflexivity. }
  destruct Hgroup as [n Hn].
  assert (Hm : match_at alts (match last N with Some c => Some c | None => None end)
                 (py "sell personal data" ++ Q) = Some n).
  { unfold match_at. rewrite Hn.
    replace (word_boundary _ _) with true; [reflexivity|].
    unfold word_boundary. rewrite spd_chars. cbn [head app].
    destruct (last N) as [z|] eqn:EN; cbn [is_word_opt];
      [rewrite (HN z eq_refl)|]; rewrite Hw_az by lia; reflexivity. }
  unfold findall.
  destruct (scan _ alts None (N ++ py "sell personal data" ++ Q)) eqn:Es.
  - exfalso. refine (scan_nonempty alts N None _ n _ Hm _ Es).
    rewrite !length_app. lia.
  - cbn. by constructor.
Qed.

End SellPersonalData.

End ComplianceFacts.

Module Latin1Facts.

Lemma latin1_lower_az c : 97 <= c <= 122 -> latin1_lower_cp c = c.
Proof.
  intros Hc. unfold latin1_lower_cp.
  rewrite (proj2 (Z.leb_gt c 90)), (proj2 (Z.leb_gt 192 c)) by lia.
  by rewrite !andb_false_r.
Qed.

Lemma latin1_isspace_az c : 97 <= c <= 122 -> latin1_isspace c = false.
Proof.
  intros Hc. unfold latin1_isspace.
  rewrite (proj2 (Z.leb_gt c 13)), (proj2 (Z.leb_gt c 32)),
    (proj2 (Z.eqb_neq c 133)), (proj2 (Z.eqb_neq c 160)) by lia.
  by rewrite !andb_false_r.
Qed.

Ltac word_disjunct lo hi :=
  intros; unfold latin1_isword;
  rewrite (proj2 (Z.leb_le lo _)), (proj2 (Z.leb_le _ hi)) by lia;
  cbn [andb]; rewrite ?orb_true_r, ?orb_true_l; reflexivity.

Lemma latin1_isword_az c : 97 <= c <= 122 -> latin1_isword c = true.
Proof. word_disjunct 97 122. Qed.

Lemma latin1_lower_nonword c :
  latin1_isword c = false -> latin1_isword (latin1_lower_cp c) = false.
Proof.
  intros Hc. unfold latin1_lower_cp.
  destruct (((65 <=? c) && (c <=? 90)) || _) eqn:E; [exfalso|exact Hc].
  apply orb_true_iff in E as [E|E].
  - apply andb_true_iff in E as [E1%Z.leb_le E2%Z.leb_le].
    assert (latin1_isword c = true) by word_disjunct 65 90. congruence.
  - apply andb_true_iff in E as [[E1%Z.leb_le E2%Z.leb_le]%andb_true_iff E3%negb_true_iff].
    apply Z.eqb_neq in E3.
    destruct (Z.le_gt_cases c 214).
    + assert (latin1_isword c = true) by word_disjunct 192 214. congruence.
    + assert (latin1_isword c = true) by word_disjunct 216 246. congruence.
Qed.

End Latin1Facts.

Module GraphFacts.
Import Workflow Graph.

Lemma decide_valid `{PyUnicode} llm ur :
  Router.decide llm ur <> [] /\ Forall (fun t => t ∈ Router.valid_steps) (Router.decide llm ur).
Proof.
  unfold Router.decide. destruct (llm ur) as [raw|]; [|apply RouterFacts.keyword_fallback_valid].
  destruct (Router.filter_tasks _) eqn:Hf; [apply RouterFacts.keyword_fallback_valid|].
  split; [done|]. rewrite <- Hf. apply RouterFacts.filter_tasks_valid.
Qed.

Lemma valid_channel t :
  t ∈ Router.valid_steps ->
  py_mem (py "to_" ++ t) valid_channels = true /\
  path_get (py "to_" ++ t) = Some (ToNode (py "node_" ++ t)).
Proof.
  unfold Router.valid_steps. rewrite !elem_of_cons, elem_of_nil.
  intros Ht. repeat destruct Ht as [->|Ht]; try done; vm_compute; auto.
Qed.

Lemma py_mem_true x xs : py_mem x xs = true -> x ∈ xs.
Proof.
  unfold py_mem. intros (y & Hy & Heq)%existsb_exists.
  unfold pystr_eqb in Heq. apply bool_decide_eq_true in Heq. subst. by apply list_elem_of_In.
Qed.

Lemma path_get_end : path_get (py "end") = Some ToEND.
Proof. reflexivity. Qed.

Lemma channel_mem_path c :
  py_mem c valid_channels = true -> exists target, path_get c = Some target.
Proof.
  intros Hm. apply py_mem_true in Hm. unfold valid_channels in Hm. cbn [map] in Hm.
  rewrite !elem_of_cons, elem_of_nil in Hm.
  repeat destruct Hm as [Hm|Hm]; try done; rewrite Hm; vm_compute; eauto.
Qed.

Lemma py_index_ok {A} (l : list A) (i : Z) :
  (- Z.of_nat (length l) <= i < Z.of_nat (length l))%Z -> exists x, py_index l i = inr x.
Proof.
  intros Hi. unfold py_index. cbv zeta.
  set (j := if (i <? 0)%Z then (i + Z.of_nat (length l))%Z else i).
  assert (Hj : (0 <= j < Z.of_nat (length l))%Z).
  { unfold j. destruct (i <? 0)%Z eqn:H0; [apply Z.ltb_lt in H0|apply Z.ltb_ge in H0]; lia. }
  replace (j <? 0)%Z with false by (symmetry; apply Z.ltb_ge; lia).
  destruct (nth_error l (Z.to_nat j)) eqn:He; [eauto|].
  apply nth_error_None in He. lia.
Qed.

Lemma py_index_err {A} (l : list A) (i : Z) :
  (i < - Z.of_nat (length l))%Z -> exists e, py_index l i = inl e.
Proof.
  intros Hi. unfold py_index. cbv zeta.
  replace (i <? 0)%Z with true by (symmetry; apply Z.ltb_lt; lia).
  replace (i + Z.of_nat (length l) <? 0)%Z with true by (symmetry; apply Z.ltb_lt; lia).
  eauto.
Qed.

Lemma py_index_nat {A} (l : list A) (i : nat) (d : A) :
  (i < length l)%nat -> py_index l (Z.of_nat i) = inr (nth i l d).
Proof.
  intros Hi. assert (H0 : (Z.of_nat i <? 0)%Z = false) by (apply Z.ltb_ge; lia).
  unfold py_index. cbv zeta. rewrite H0. cbv beta iota. rewrite H0, Nat2Z.id.
  destruct (nth_error l i) as [x|] eqn:He.
  - f_equal. symmetry. by apply nth_error_nth.
  - apply nth_error_None in He. lia.
Qed.

Lemma routing_in_plan s plan i :
  next_steps s = Some (Some plan) -> current_step_index s = Some (Some (Z.of_nat i)) ->
  Forall (fun t => t ∈ Router.valid_steps) plan ->
  routing_logic s =
    inr (if (i <? length plan)%nat then py "to_" ++ nth i plan [] else py "end").
Proof.
  intros Hn Hi Hv. unfold routing_logic, get_steps, get_index. rewrite Hn, Hi.
  destruct (i <? length plan)%nat eqn:Hlt.
  - apply Nat.ltb_lt in Hlt.
    replace (Z.of_nat i <? Z.of_nat (length plan))%Z with true
      by (symmetry; apply Z.ltb_lt; lia).
    rewrite (py_index_nat plan i [] Hlt).
    assert (Hin : nth i plan [] ∈ Router.valid_steps).
    { rewrite Forall_forall in Hv. apply Hv. apply list_elem_of_In. apply nth_In. lia. }
    by rewrite (proj1 (valid_channel _ Hin)).
  - apply Nat.ltb_ge in Hlt.
    replace (Z.of_nat i <? Z.of_nat (length plan))%Z with false
      by (symmetry; apply Z.ltb_ge; lia).
    done.
Qed.

Lemma run_plan_from `{PyUnicode} llm node_body plan :
  plan <> [] -> Forall (fun t => t ∈ Router.valid_steps) plan ->
  (forall node s, exists out, node_body node s = inr out) ->
  forall k s i fuel, (i + k = length plan)%nat ->
  next_steps s = Some (Some plan) -> current_step_index s = Some (Some (Z.of_nat i)) ->
  (2 * k + 1 <= fuel)%nat ->
  exists final, run_from_router llm node_body fuel s =
      Some (inr (map (fun t => py "to_" ++ t) (drop i plan) ++ [py "end"], final)) /\
    next_steps final = Some (Some plan) /\
    current_step_index final = Some (Some (Z.of_nat (length plan))).
Proof.
  intros Hne Hv Hbody k. induction k as [|k IH]; intros s i fuel Hk Hn Hi Hf.
  - destruct fuel as [|fuel]; [lia|]. cbn [run_from_router].
    assert (Hset : next_steps_set s = true) by (unfold next_steps_set; rewrite Hn; by destruct plan).
    unfold graph_router_node. rewrite Hset, WorkflowFacts.apply_empty_update.
    rewrite (routing_in_plan s plan i Hn Hi Hv).
    replace (i <? length plan)%nat with false by (symmetry; apply Nat.ltb_ge; lia).
    rewrite path_get_end. exists s. rewrite drop_ge by lia.
    split_and!; [done|done|rewrite Hi; do 2 f_equal; lia].
  - destruct fuel as [|[|fuel]]; [lia|lia|]. cbn [run_from_router].
    assert (Hset : next_steps_set s = true) by (unfold next_steps_set; rewrite Hn; by destruct plan).
    unfold graph_router_node. rewrite Hset, WorkflowFacts.apply_empty_update.
    rewrite (routing_in_plan s plan i Hn Hi Hv).
    replace (i <? length plan)%nat with true by (symmetry; apply Nat.ltb_lt; lia).
    assert (Hin : nth i plan [] ∈ Router.valid_steps).
    { rewrite Forall_forall in Hv. apply Hv, list_elem_of_In, nth_In. lia. }
    rewrite (proj2 (valid_channel _ Hin)).
    unfold task_node. destruct (Hbody (py "node_" ++ nth i plan []) s) as [out Hout].
    rewrite Hout. unfold get_index. rewrite Hi. cbv beta iota.
    destruct (IH (apply_update (mkAgentState None None None None None
                   (Some (Some (Z.of_nat i + 1)%Z)) None None out) s)
                (S i) fuel) as (final & Hrun & Hfn & Hfi);
      [lia|by rewrite <- Hn|cbn; do 2 f_equal; lia|lia|].
    rewrite Hrun. exists final. split_and!; [|done|done].
    destruct (lookup_lt_is_Some_2 plan i) as [x Hx]; [lia|].
    rewrite (drop_S plan x i Hx), (nth_lookup_Some plan i [] x Hx). done.
Qed.
End GraphFacts.

Module PlanFacts.
Import Router.

Lemma py_mem_false x xs : py_mem x xs = false -> x ∉ xs.
Proof.
  unfold py_mem. intros Hm Hin. apply list_elem_of_In in Hin.
  assert (existsb (pystr_eqb x) xs = true) as Ht.
  { apply existsb_exists. exists x. split; [done|]. unfold pystr_eqb. by apply bool_decide_eq_true. }
  congruence.
Qed.

Lemma filter_tasks_nodup `{PyUnicode} (tasks : list pystr) : NoDup (filter_tasks tasks).
Proof.
  unfold filter_tasks.
  assert (Hgen : forall acc, NoDup acc ->
    NoDup (fold_left (fun filtered_tasks task =>
         match find (fun valid => py_in valid task && negb (py_mem valid filtered_tasks))
                    valid_steps with
         | Some valid => filtered_tasks ++ [valid]
         | None => filtered_tasks
         end) tasks acc)).
  { induction tasks as [|t ts IH]; intros acc Hacc; cbn [fold_left]; [done|].
    apply IH. match goal with |- context [find ?f ?l] => destruct (find f l) eqn:Hf end; [|done].
    apply find_some in Hf as [_ Hf]. apply andb_prop in Hf as [_ Hf].
    apply negb_true_iff, py_mem_false in Hf.
    apply NoDup_app. split_and!; [done| |apply NoDup_singleton].
    intros x Hx ->%list_elem_of_singleton. done. }
  apply Hgen. constructor.
Qed.

Lemma keyword_fallback_nodup `{PyUnicode} (ur : pystr) : NoDup (keyword_fallback ur).
Proof.
  unfold keyword_fallback.
  destruct (any_in translate_words _), (any_in analyze_words _),
    (any_in summary_words _), (any_in recommend_words _), (any_in ideate_words _),
    (any_in copywrite_words _), (any_in compliance_words _);
    apply (bool_decide_unpack _); vm_compute; reflexivity.
Qed.

Lemma decide_nodup `{PyUnicode} llm ur : NoDup (decide llm ur).
Proof.
  unfold decide. destruct (llm ur) as [raw|]; [|apply keyword_fallback_nodup].
  destruct (filter_tasks _) eqn:Hf; [apply keyword_fallback_nodup|].
  rewrite <- Hf. apply filter_tasks_nodup.
Qed.

Lemma decide_length `{PyUnicode} llm ur : (length (decide llm ur) <= 7)%nat.
Proof.
  change 7%nat with (length valid_steps).
  apply NoDup_incl_length; [apply NoDup_ListNoDup, decide_nodup|].
  intros t Ht. apply list_elem_of_In.
  destruct (GraphFacts.decide_valid llm ur) as [_ Hv]. rewrite Forall_forall in Hv.
  by apply Hv, list_elem_of_In.
Qed.

End PlanFacts.

Module ExecutorFacts.
Import Workflow AsyncBatch.

Lemma merge_gathered_collect agent_run batch s :
  execute_batch_async agent_run batch s = collect_results agent_run batch s.
Proof.
  unfold execute_batch_async, merge_gathered, collect_results.
  generalize (∅ : gmap pystr pyval) as acc.
  induction batch as [|n batch IH]; intros acc; [done|]. cbn [map zip fold_left]. apply IH.
Qed.

Lemma in_agent_map_state_key (n cls : pystr) :
  assoc_get n AGENT_MAP = Some cls -> state_key n ∈ map snd STATE_KEYS.
Proof.
  intros Hg. destruct (decide (n ∈ map fst AGENT_MAP)) as [Hin|Hin];
    [|by rewrite WorkflowFacts.assoc_get_not_in in Hg].
  cbn [map fst AGENT_MAP] in Hin. rewrite !elem_of_cons, elem_of_nil in Hin.
  repeat destruct Hin as [->|Hin]; try done; apply (bool_decide_unpack _); vm_compute; reflexivity.
Qed.

Lemma execute_agent_keys agent_run n s k v :
  execute_agent agent_run n s !! k = Some v -> k ∈ map snd STATE_KEYS.
Proof.
  unfold execute_agent. destruct (assoc_get n AGENT_MAP) as [cls|] eqn:Hg; [|done].
  repeat match goal with |- context [match ?x with _ => _ end] => destruct x end;
    try done.
  all: try (intros (<- & _)%lookup_singleton_Some; by eapply in_agent_map_state_key).
Qed.

Lemma collect_results_keys agent_run batch s k v :
  collect_results agent_run batch s !! k = Some v -> k ∈ map snd STATE_KEYS.
Proof.
  unfold collect_results.
  assert (Hgen : forall acc, (forall v', acc !! k = Some v' -> k ∈ map snd STATE_KEYS) ->
    forall v', fold_left (fun results agent_name => execute_agent agent_run agent_name s ∪ results)
                 batch acc !! k = Some v' -> k ∈ map snd STATE_KEYS).
  { induction batch as [|n batch IH]; intros acc Hacc; [done|]. cbn [fold_left]. apply IH.
    intros v' [Hl|[_ Hr]]%lookup_union_Some_raw; [by eapply execute_agent_keys|by eapply Hacc]. }
  apply (Hgen ∅). by intros v' Hv'%lookup_empty_Some.
Qed.

Lemma execute_agent_entry agent_run n s k v :
  execute_agent agent_run n s !! k = Some v ->
  n ∈ map fst AGENT_MAP /\ k = state_key n.
Proof.
  unfold execute_agent. destruct (assoc_get n AGENT_MAP) as [cls|] eqn:Hg; [|done].
  assert (Hin : n ∈ map fst AGENT_MAP).
  { destruct (decide (n ∈ map fst AGENT_MAP)) as [Hin|Hin]; [done|].
    by rewrite WorkflowFacts.assoc_get_not_in in Hg. }
  repeat match goal with |- context [match ?x with _ => _ end] => destruct x end;
    try done.
  all: intros (<- & _)%lookup_singleton_Some; by split.
Qed.

Lemma state_key_inj a b :
  a ∈ map fst AGENT_MAP -> b ∈ map fst AGENT_MAP -> state_key a = state_key b -> a = b.
Proof.
  cbn [map fst AGENT_MAP]. rewrite !elem_of_cons, !elem_of_nil.
  intros Ha Hb Hk. repeat destruct Ha as [->|Ha]; repeat destruct Hb as [->|Hb];
    try done; vm_compute in Hk; congruence.
Qed.

(** Two agents never put different values under the same key. *)
Lemma execute_agent_agree agent_run a b s k v w :
  execute_agent agent_run a s !! k = Some v -> execute_agent agent_run b s !! k = Some w ->
  v = w.
Proof.
  intros Ha Hb.
  destruct (execute_agent_entry agent_run a s k v Ha) as [Ina ->].
  destruct (execute_agent_entry agent_run b s _ w Hb) as [Inb Hk].
  rewrite (state_key_inj b a Inb Ina (eq_sym Hk)) in Hb. congruence.
Qed.

Lemma fold_merge_lookup agent_run batch s acc k w :
  fold_left (fun results agent_name => execute_agent agent_run agent_name s ∪ results)
    batch acc !! k = Some w ->
  acc !! k = Some w \/ exists a, a ∈ batch /\ execute_agent agent_run a s !! k = Some w.
Proof.
  revert acc. induction batch as [|n batch IH]; intros acc; cbn [fold_left]; [by left|].
  intros [Hr|(a & Ha & Hk)]%IH.
  - apply lookup_union_Some_raw in Hr as [Hl|[_ Hr]]; [|by left].
    right. exists n. split; [apply list_elem_of_here|done].
  - right. exists a. split; [by apply list_elem_of_further|done].
Qed.

Lemma fold_merge_is_some agent_run batch s acc k :
  (is_Some (acc !! k) \/ exists a v, a ∈ batch /\ execute_agent agent_run a s !! k = Some v) ->
  is_Some (fold_left (fun results agent_name => execute_agent agent_run agent_name s ∪ results)
             batch acc !! k).
Proof.
  revert acc. induction batch as [|n batch IH]; intros acc Hk; cbn [fold_left].
  - destruct Hk as [Hk|(a & v & Ha%elem_of_nil & _)]; done.
  - apply IH. destruct Hk as [Hk|(a & v & [->|Ha]%elem_of_cons & Hv)].
    + left. apply lookup_union_is_Some. by right.
    + left. apply lookup_union_is_Some. left. by exists v.
    + right. by exists a, v.
Qed.

Lemma collect_from_lookup agent_run timed_out i batch s acc k v :
  BatchTimeout.collect_from agent_run timed_out i batch s acc !! k = Some v ->
  acc !! k = Some v \/ exists a, a ∈ batch /\ execute_agent agent_run a s !! k = Some v.
Proof.
  revert i acc. induction batch as [|n batch IH]; intros i acc;
    cbn [BatchTimeout.collect_from]; [by left|].
  intros [Hl|(a & Ha & Hk)]%IH.
  - destruct (timed_out i); [by left|].
    apply lookup_union_Some_raw in Hl as [Hl|[_ Hr]]; [|by left].
    right. exists n. split; [apply list_elem_of_here|done].
  - right. exists a. split; [by apply list_elem_of_further|done].
Qed.

Lemma collect_from_no_timeout agent_run timed_out i batch s acc :
  (forall j, (i <= j < i + length batch)%nat -> timed_out j = false) ->
  BatchTimeout.collect_from agent_run timed_out i batch s acc =
    fold_left (fun results agent_name => execute_agent agent_run agent_name s ∪ results)
      batch acc.
Proof.
  revert i acc. induction batch as [|n batch IH]; intros i acc Ht; [done|].
  cbn [BatchTimeout.collect_from fold_left length] in *.
  rewrite (Ht i) by lia. apply IH. intros j Hj. apply Ht. lia.
Qed.

Lemma parallel_batch_executor_keys agent_run s s' results k v :
  parallel_batch_executor agent_run s = inr (s', results) ->
  results !! k = Some v -> k ∈ map snd STATE_KEYS.
Proof.
  unfold parallel_batch_executor.
  destruct (_ <=? _)%nat; [by intros [= _ <-]|].
  destruct (nth _ _ _) as [|a [|a' rest]].
  - done.
  - intros [= _ <-]. apply execute_agent_keys.
  - unfold execute_batch_parallel. intros [= _ <-]. apply collect_results_keys.
Qed.

End ExecutorFacts.

Module ResponseFacts.
Import ResponseCleaning.

Lemma extract_dict (str_of : pyval -> pystr) (d : list (pystr * pyval)) :
  extract_agent_output str_of (VDict d) =
    match dict_get (py "output") d with
    | Some x => extract_agent_output str_of x
    | None => str_of (VDict d)
    end.
Proof.
  cbn [extract_agent_output]. unfold dict_get.
  generalize (str_of (VDict d)) as dflt. intros dflt.
  induction d as [|[k x] d IH]; [done|]. cbn [find fst].
  destruct (pystr_eqb k (py "output")); [done|]. exact IH.
Qed.

Lemma fold_string_fields (str_of : pyval -> pystr) (F : list pystr) (c : gmap pystr pyval) k :
  fold_left (fun c field =>
               match c !! field with
               | Some v => <[field := VStr (extract_agent_output str_of v)]> c
               | None => c
               end) F c !! k =
  if bool_decide (k ∈ F) then (fun v => VStr (extract_agent_output str_of v)) <$> c !! k
  else c !! k.
Proof.
  revert c. induction F as [|f F IH]; intros c; [done|]. cbn [fold_left]. rewrite IH.
  destruct (decide (f = k)) as [->|Hfk].
  - assert (Hs : (match c !! k with
                  | Some v => <[k := VStr (extract_agent_output str_of v)]> c
                  | None => c end) !! k =
                  (fun v => VStr (extract_agent_output str_of v)) <$> c !! k).
    { destruct (c !! k) eqn:Hc; [by rewrite lookup_insert_eq|by rewrite Hc]. }
    rewrite Hs, (bool_decide_true (k ∈ k :: F)) by apply list_elem_of_here.
    case_bool_decide; [|done]. by destruct (c !! k).
  - assert (Hs : (match c !! f with
                  | Some v => <[f := VStr (extract_agent_output str_of v)]> c
                  | None => c end) !! k = c !! k).
    { destruct (c !! f); [by rewrite lookup_insert_ne|done]. }
    rewrite Hs. repeat case_bool_decide; try done.
    + exfalso. match goal with H : ¬ k ∈ f :: F |- _ => apply H end. by apply list_elem_of_further.
    + match goal with H : k ∈ f :: F |- _ => apply elem_of_cons in H as [->|H] end; done.
Qed.

Lemma fold_delete (F : list pystr) (c : gmap pystr pyval) k :
  fold_left (fun c field => delete field c) F c !! k =
  if bool_decide (k ∈ F) then None else c !! k.
Proof.
  revert c. induction F as [|f F IH]; intros c; [done|]. cbn [fold_left]. rewrite IH.
  destruct (decide (f = k)) as [->|Hfk].
  - rewrite lookup_delete_eq, (bool_decide_true (k ∈ k :: F)) by apply list_elem_of_here.
    by case_bool_decide.
  - rewrite lookup_delete_ne by done. repeat case_bool_decide; try done.
    + exfalso. match goal with H : ¬ k ∈ f :: F |- _ => apply H end. by apply list_elem_of_further.
    + match goal with H : k ∈ f :: F |- _ => apply elem_of_cons in H as [->|H] end; done.
Qed.

End ResponseFacts.

Module ValidatorFacts.
Import Compliance OutputValidator.

Lemma validate_issues_ok (l : list Issue) :
  Forall (fun i => exists sv, issue_severity i = value sv) l ->
  validate_issues (map issue_dict l) = inr true.
Proof.
  induction 1 as [|i l [sv Hi] _ IH]; [done|].
  cbn [map validate_issues]. unfold issue_dict at 1.
  change (has_keys (map py ["severity"; "match"; "description"]%string)
            [(py "severity", VStr (issue_severity i)); (py "match", VStr (issue_match i));
             (py "description", VStr (issue_description i))]) with true.
  change (dict_val (py "severity") _) with (VStr (issue_severity i)).
  change (dict_val (py "match") _) with (VStr (issue_match i)).
  change (dict_val (py "description") _) with (VStr (issue_description i)).
  cbn [negb in_str_set]. rewrite Hi.
  replace (py_mem (value sv) _) with true by (destruct sv; reflexivity).
  exact IH.
Qed.

Lemma resolve_status_values l :
  py_mem (resolve_status l) (map py ["ok"; "review"; "block"]%string) = true.
Proof.
  unfold resolve_status.
  destruct (existsb _ _); [reflexivity|]. destruct (existsb _ _); [reflexivity|].
  destruct l; reflexivity.
Qed.

Lemma validate_report (r : Report) :
  py_mem (status r) (map py ["ok"; "review"; "block"]%string) = true ->
  Forall (fun i => exists sv, issue_severity i = value sv) (issues r) ->
  issue_count r = length (issues r) -> 0 <= risk_score r ->
  validate_compliance (report_dict r) = inr true.
Proof.
  intros Hs Hi Hc Hr. destruct r as [st I cnt risk]. cbn [status issues issue_count risk_score] in *.
  unfold validate_compliance, report_dict.
  change (has_keys _ _) with true.
  change (dict_val (py "status") _) with (VStr st).
  change (dict_val (py "issues") _) with (VList (map issue_dict I)).
  change (dict_val (py "issue_count") _) with (VInt (Z.of_nat cnt)).
  change (dict_val (py "risk_score") _) with (VInt risk).
  cbn [negb in_str_set as_int]. rewrite Hs, validate_issues_ok by done.
  subst cnt. rewrite length_map, Z.eqb_refl. cbn [negb].
  f_equal. apply negb_true_iff, Z.ltb_ge. done.
Qed.

End ValidatorFacts.

Module TextFacts.
Import Compliance TextTools.

Section Facts.
Context `{PyUnicode}.

Lemma single_spaced_cons c t :
  single_spaced (c :: t) =
  (if uc_isspace c then (c =? 32) && negb (space_opt (head t)) else true) && single_spaced t.
Proof. by destruct t. Qed.

Lemma collapse_ws_single (s : pystr) :
  forall b, single_spaced (collapse_ws b s) = true /\
            space_opt (head (collapse_ws true s)) = false.
Proof.
  induction s as [|c t IH]; intros b; [done|].
  destruct (IH false) as [Hf _]. destruct (IH true) as [Ht Hh].
  cbn [collapse_ws]. destruct (uc_isspace c) eqn:Hc.
  - split; [|done]. destruct b; [done|].
    rewrite single_spaced_cons, Ht, Hh, Z.eqb_refl. by destruct (uc_isspace 32).
  - split; [|simpl; by rewrite Hc]. by rewrite single_spaced_cons, Hc, Hf.
Qed.

Lemma single_spaced_app (a b : pystr) :
  single_spaced (a ++ b) = true -> single_spaced a = true /\ single_spaced b = true.
Proof.
  induction a as [|c a IH]; [done|]. rewrite <- app_comm_cons, !single_spaced_cons.
  intros [Hc Hr]%andb_prop. destruct (IH Hr) as [Ha Hb]. split; [|done].
  rewrite Ha, andb_true_r. destruct (uc_isspace c); [|done].
  apply andb_prop in Hc as [H1 H2]. rewrite H1. destruct a; [done|exact H2].
Qed.

Lemma lstrip_suffix (s : pystr) : exists p, s = p ++ lstrip s.
Proof.
  induction s as [|c t [p Hp]]; [by exists []|]. cbn [lstrip].
  destruct (uc_isspace c); [exists (c :: p); by rewrite Hp at 1|by exists []].
Qed.

Lemma py_strip_infix (s : pystr) : exists p q, s = p ++ py_strip s ++ q.
Proof.
  destruct (lstrip_suffix s) as [p Hp].
  destruct (lstrip_suffix (rev (lstrip s))) as [q Hq].
  exists p, (rev q). unfold py_strip.
  rewrite <- rev_app_distr, <- Hq, rev_involutive. exact Hp.
Qed.

Lemma lstrip_head (s : pystr) : space_opt (head (lstrip s)) = false.
Proof.
  induction s as [|c t IH]; [done|]. cbn [lstrip].
  destruct (uc_isspace c) eqn:Hc; [done|]. simpl. by rewrite Hc.
Qed.

Lemma last_rev_head (l : pystr) : last (rev l) = head l.
Proof. destruct l as [|x l]; [done|]. cbn [rev]. by rewrite last_snoc. Qed.

Lemma head_rev_last (l : pystr) : head (rev l) = last l.
Proof. rewrite <- (rev_involutive l) at 2. by rewrite last_rev_head. Qed.

Lemma py_strip_ends (s : pystr) :
  space_opt (head (py_strip s)) = false /\ space_opt (last (py_strip s)) = false.
Proof.
  unfold py_strip. rewrite last_rev_head, head_rev_last. split; [|apply lstrip_head].
  destruct (lstrip_suffix (rev (lstrip s))) as [p Hp].
  destruct (lstrip (rev (lstrip s))) as [|x L] eqn:HL; [done|].
  assert (Hl : last (rev (lstrip s)) = last (x :: L)) by (rewrite Hp, last_app; by destruct (last (x :: L)) eqn:E; [|apply last_None in E]).
  rewrite <- Hl, last_rev_head. apply lstrip_head.
Qed.

Lemma py_strip_single (s : pystr) : single_spaced s = true -> single_spaced (py_strip s) = true.
Proof.
  destruct (py_strip_infix s) as (p & q & Hs). rewrite Hs at 1.
  intros [_ Hm]%single_spaced_app. by apply single_spaced_app in Hm as [? _].
Qed.

Lemma single_collapse_id (s : pystr) :
  single_spaced s = true ->
  collapse_ws false s = s /\ (space_opt (head s) = false -> collapse_ws true s = s).
Proof.
  induction s as [|c t IH]; [done|]. rewrite single_spaced_cons.
  intros [Hc Ht]%andb_prop. destruct (IH Ht) as [IHf IHt]. cbn [collapse_ws].
  destruct (uc_isspace c) eqn:Hsp.
  - apply andb_prop in Hc as [H32 Hh]. apply Z.eqb_eq in H32. subst c.
    split; [|simpl; by rewrite Hsp]. rewrite IHt; [done|]. by apply negb_true_iff.
  - by rewrite IHf.
Qed.

Lemma lstrip_id (s : pystr) : space_opt (head s) = false -> lstrip s = s.
Proof. destruct s as [|c t]; [done|]. simpl. intros Hc. by rewrite Hc. Qed.

Lemma ws_normal_fixed (s : pystr) : ws_normal s = true -> clean_extra_whitespace s = s.
Proof.
  unfold ws_normal. intros [[Hs Hh]%andb_prop Hl]%andb_prop.
  apply negb_true_iff in Hh, Hl. unfold clean_extra_whitespace, py_strip.
  rewrite (proj1 (single_collapse_id s Hs)), (lstrip_id s Hh).
  rewrite (lstrip_id (rev s)) by (by rewrite head_rev_last). apply rev_involutive.
Qed.

Lemma clean_normal (t : pystr) : ws_normal (clean_extra_whitespace t) = true.
Proof.
  unfold ws_normal, clean_extra_whitespace.
  destruct (py_strip_ends (collapse_ws false t)) as [-> ->].
  rewrite py_strip_single; [done|]. apply (collapse_ws_single t false).
Qed.

Lemma collapse_ws_elems (s : pystr) b c : c ∈ collapse_ws b s -> c ∈ s \/ c = 32.
Proof.
  revert b. induction s as [|x t IH]; intros b; [by intros ?%elem_of_nil|]. cbn [collapse_ws].
  destruct (uc_isspace x), b; rewrite ?elem_of_cons.
  - intros Hc. destruct (IH _ Hc); tauto.
  - intros [->|Hc]; [by right|]. destruct (IH _ Hc); tauto.
  - intros [->|Hc]; [by left; left|]. destruct (IH _ Hc); tauto.
  - intros [->|Hc]; [by left; left|]. destruct (IH _ Hc); tauto.
Qed.

Lemma sub_bullets_elems (s : pystr) b c :
  c ∈ sub_bullets b s -> (c ∈ s /\ is_bullet c = false) \/ c = 32.
Proof.
  revert b. induction s as [|x t IH]; intros b; [by intros ?%elem_of_nil|]. cbn [sub_bullets].
  destruct (is_bullet x) eqn:Hx, b; rewrite ?elem_of_cons.
  - intros Hc. destruct (IH _ Hc) as [[? ?]|]; tauto.
  - intros [->|Hc]; [by right|]. destruct (IH _ Hc) as [[? ?]|]; tauto.
  - intros [->|Hc]; [left; split; [by left|done]|].
    destruct (IH _ Hc) as [[? ?]|]; tauto.
  - intros [->|Hc]; [left; split; [by left|done]|].
    destruct (IH _ Hc) as [[? ?]|]; tauto.
Qed.

Lemma py_strip_elems (s : pystr) c : c ∈ py_strip s -> c ∈ s.
Proof.
  destruct (py_strip_infix s) as (p & q & Hs). intros Hc. rewrite Hs.
  apply elem_of_app. right. apply elem_of_app. by left.
Qed.

End Facts.
End TextFacts.

Module BriefFacts.
Import TextTools.

Lemma is_prefix_app (n h q : pystr) : is_prefix n h = true -> is_prefix n (h ++ q) = true.
Proof.
  revert h. induction n as [|c n IH]; intros h; [done|].
  destruct h as [|d h]; [done|]. cbn [is_prefix app].
  intros [Hc Hn]%andb_prop. by rewrite Hc, IH.
Qed.

Lemma py_in_app_r (n h q : pystr) : py_in n h = true -> py_in n (h ++ q) = true.
Proof.
  induction h as [|x h IH]; cbn [py_in app].
  - rewrite orb_false_r. intros Hp. destruct n; [|done]. by destruct q.
  - intros [Hp|Hr]%orb_prop.
    + change (x :: h ++ q) with ((x :: h) ++ q). by rewrite (is_prefix_app _ _ _ Hp).
    + by rewrite IH, orb_true_r.
Qed.

Lemma py_in_app_l (n p h : pystr) : py_in n h = true -> py_in n (p ++ h) = true.
Proof.
  induction p as [|x p IH]; [done|]. intros Hh. cbn [app py_in]. by rewrite IH, orb_true_r.
Qed.

Lemma filter_length_mono {A} (f g : A -> bool) (l : list A) :
  (forall x, f x = true -> g x = true) ->
  (length (List.filter f l) <= length (List.filter g l))%nat.
Proof.
  intros Hfg. induction l as [|x l IH]; [done|]. cbn [List.filter].
  destruct (f x) eqn:Hf; [rewrite (Hfg x Hf); cbn [length]; lia|].
  destruct (g x); cbn [length]; lia.
Qed.

Lemma is_valid_brief_eq `{PyUnicode} (s : pystr) :
  is_valid_brief s =
    if (length s <? 100)%nat then false
    else negb (length (List.filter (fun word => py_in word (py_lower s)) REQUIRED_KEYWORDS)
                <? MIN_KEYWORD_MATCH)%nat.
Proof. by destruct s. Qed.

End BriefFacts.

Module GraphFailFacts.
Import Workflow Graph.

Lemma run_plan_fail `{PyUnicode} llm node_body plan i e :
  plan <> [] -> Forall (fun t => t ∈ Router.valid_steps) plan -> NoDup plan ->
  (i < length plan)%nat ->
  (forall s, node_body (py "node_" ++ nth i plan []) s = inl e) ->
  (forall node s, node <> py "node_" ++ nth i plan [] -> exists out, node_body node s = inr out) ->
  forall k s j fuel, (j + k = i)%nat ->
  next_steps s = Some (Some plan) -> current_step_index s = Some (Some (Z.of_nat j)) ->
  (2 * k + 2 <= fuel)%nat ->
  run_from_router llm node_body fuel s = Some (inl e).
Proof.
  intros Hne Hv Hnd Hi Hfail Hok k. induction k as [|k IH]; intros s j fuel Hk Hn Hj Hf;
    (destruct fuel as [|[|fuel]]; [lia|lia|]); cbn [run_from_router];
    (assert (Hset : next_steps_set s = true) by (unfold next_steps_set; rewrite Hn; by destruct plan));
    unfold graph_router_node; rewrite Hset, WorkflowFacts.apply_empty_update;
    rewrite (GraphFacts.routing_in_plan s plan j Hn Hj Hv);
    (replace (j <? length plan)%nat with true by (symmetry; apply Nat.ltb_lt; lia));
    (assert (Hin : nth j plan [] ∈ Router.valid_steps)
       by (rewrite Forall_forall in Hv; apply Hv, list_elem_of_In, nth_In; lia));
    rewrite (proj2 (GraphFacts.valid_channel _ Hin)); unfold task_node.
  - replace j with i by lia. by rewrite Hfail.
  - assert (Hneq : py "node_" ++ nth j plan [] <> py "node_" ++ nth i plan []).
    { intros Heq%app_inv_head.
      destruct (lookup_lt_is_Some_2 plan j) as [x Hx]; [lia|].
      destruct (lookup_lt_is_Some_2 plan i) as [y Hy]; [lia|].
      rewrite (nth_lookup_Some plan j [] x Hx), (nth_lookup_Some plan i [] y Hy) in Heq.
      subst y. pose proof (NoDup_lookup plan j i x Hnd Hx Hy). lia. }
    destruct (Hok _ s Hneq) as [out Hout]. rewrite Hout. unfold get_index. rewrite Hj.
    cbv beta iota.
    rewrite (IH _ (S j) fuel); [done|lia|by rewrite <- Hn|cbn; do 2 f_equal; lia|lia].
Qed.

End GraphFailFacts.


(* ================================================================== *)
(** * Claims *)

Import Planner.

(** C1. The Batch Planner keeps the task list, in order, as the
    concatenation of its batches; every batch is either a singleton
    [translate] / [compliance] batch or a non-empty batch of the other
    (parallel-safe) tasks; two neighbouring batches are never both parallel
    batches (every parallel-safe task joins the pending batch, which is only
    flushed at a [translate] / [compliance] task or at the end); and the empty
    task list gives no batch. *)
Theorem group_parallel_agents_spec (T : list pystr) :
  concat (group_parallel_agents T) = T /\
  Forall batch_shape (group_parallel_agents T) /\
  (forall bs1 b1 b2 bs2,
      group_parallel_agents T = bs1 ++ b1 :: b2 :: bs2 ->
      solo_batch b1 = true \/ solo_batch b2 = true) /\
  group_parallel_agents [] = [].
Proof.
  assert (Hinv : loop_inv [] []) by (split_and!; by try constructor).
  destruct (PlannerFacts.loop_inv_result T [] [] Hinv) as [Hshape Halt].
  split_and!.
  - destruct T; [done|]. unfold group_parallel_agents.
    by rewrite PlannerFacts.concat_group_loop.
  - by destruct T.
  - intros bs1 b1 b2 bs2 HT. apply (PlannerFacts.alternates_split bs1 _ _ bs2).
    rewrite <- HT. by destruct T.
  - done.
Qed.

(** C4. [RouterAgent.decide] is total (an error of the model call is caught
    and gives the keyword fallback) and, for every request and every
    behaviour of the model, returns a non-empty list of whitelisted
    capability names; a failed model call, and a sanitized answer that keeps
    nothing, both give the keyword fallback, and the fallback is
    [[analyze]] when no keyword category matches. *)
Theorem decide_nonempty_whitelisted `{PyUnicode}
    (llm : pystr -> option pystr) (user_request : pystr) :
  Router.decide llm user_request <> [] /\
  Forall (fun t => t ∈ Router.valid_steps) (Router.decide llm user_request) /\
  (llm user_request = None ->
     Router.decide llm user_request = Router.keyword_fallback user_request) /\
  (forall raw, llm user_request = Some raw ->
     Router.filter_tasks (map py_strip (py_split 44 (py_lower (py_strip raw)))) = [] ->
     Router.decide llm user_request = Router.keyword_fallback user_request) /\
  (existsb (fun words => Router.any_in words (py_lower user_request))
     [Router.translate_words; Router.analyze_words; Router.summary_words;
      Router.recommend_words; Router.ideate_words; Router.copywrite_words;
      Router.compliance_words] = false ->
   Router.keyword_fallback user_request = [Router.analyze]).
Proof.
  split_and!.
  - unfold Router.decide. destruct (llm user_request) as [raw|];
      [|apply RouterFacts.keyword_fallback_valid].
    destruct (Router.filter_tasks _); [apply RouterFacts.keyword_fallback_valid|done].
  - unfold Router.decide. destruct (llm user_request) as [raw|];
      [|apply RouterFacts.keyword_fallback_valid].
    destruct (Router.filter_tasks _) eqn:Hf; [apply RouterFacts.keyword_fallback_valid|].
    rewrite <- Hf. apply RouterFacts.filter_tasks_valid.
  - intros Hn. unfold Router.decide. by rewrite Hn.
  - intros raw Hr Hf. unfold Router.decide. rewrite Hr. cbv zeta. by rewrite Hf.
  - intros Hnone. cbn [existsb] in Hnone.
    repeat match type of Hnone with
           | (?a || ?b) = false => apply orb_false_iff in Hnone as [? Hnone]
           end.
    unfold Router.keyword_fallback.
    repeat match goal with H : Router.any_in _ _ = false |- _ => rewrite H; clear H end.
    done.
Qed.

(** C5 (counterexample). On "Give me a full report" no keyword category of
    the fallback matches, so it yields [[analyze]], not
    [[summarize; analyze; recommend]]. *)
Lemma full_report_fallback_is_default :
  Router.keyword_fallback (py "Give me a full report") = [Router.analyze] /\
  Router.keyword_fallback (py "Give me a full report")
    <> [Router.summarize; Router.analyze; Router.recommend].
Proof.
  assert (E : Router.keyword_fallback (py "Give me a full report") = [Router.analyze])
    by (vm_compute; reflexivity).
  split; [exact E|]. rewrite E. discriminate.
Qed.

(** C5 (amended). For "Give me a full report" the keyword fallback (also
    what [decide] returns when the model call fails) yields [[analyze]],
    planned as the single batch [[[analyze]]]; the list
    [[summarize; analyze; recommend]] is what [decide] returns when the
    model answers "summarize,analyze,recommend", and the Planner then groups
    it into the single batch [[[summarize; analyze; recommend]]]. *)
Theorem full_report_route_and_plan :
  Router.keyword_fallback (py "Give me a full report") = [Router.analyze] /\
  Router.decide (fun _ => None) (py "Give me a full report") = [Router.analyze] /\
  group_parallel_agents (Router.keyword_fallback (py "Give me a full report"))
    = [[Router.analyze]] /\
  Router.decide (fun _ => Some (py "summarize,analyze,recommend"))
    (py "Give me a full report")
    = [Router.summarize; Router.analyze; Router.recommend] /\
  group_parallel_agents [Router.summarize; Router.analyze; Router.recommend]
    = [[Router.summarize; Router.analyze; Router.recommend]].
Proof. split_and!; vm_compute; reflexivity. Qed.

(** C2 (code bug). In a batch [[summarize, analyze]] where the analyzer
    raises, the executor returns only the summary: the failure of
    [analyze] leaves its output absent and no exception escapes, and the
    cursor advances, but no per-task error entry is recorded anywhere (the
    returned dict holds the one key [summary], and the state's fields are
    untouched apart from the cursor). *)
Theorem executor_failed_task_records_no_error :
  Workflow.parallel_batch_executor ExecutorInputs.analyzer_fails
      ExecutorInputs.two_task_state =
    inr (Workflow.set_current_batch_index 1 ExecutorInputs.two_task_state,
         {[ py "summary" := VStr (py "A short summary.") ]}) /\
  ({[ py "summary" := VStr (py "A short summary.") ]} : gmap pystr pyval)
    !! py "agent_errors" = None /\
  ({[ py "summary" := VStr (py "A short summary.") ]} : gmap pystr pyval)
    !! py "per_task_errors" = None.
Proof. split_and!; vm_compute; reflexivity. Qed.

(** C3. The batch cursor is set to 0 by routing; on every state of a run it
    is present and bounded by the number of batches; an executor call on
    such a state never raises, keeps the batches, increments the cursor by
    exactly one when a batch remains, and leaves the state unchanged (with
    an empty result) when the cursor equals the number of batches.  The
    increment is the in-place write [state["current_batch_index"] = ...]. *)
Theorem batch_cursor_monotone_bounded `{PyUnicode}
    (agent_run : pystr -> list (pystr * pyval) -> option pyval)
    (llm : pystr -> option pystr) :
  (forall s u, Workflow.next_steps_set s = false -> Workflow.router_node llm s = inr u ->
     Workflow.current_batch_index (Workflow.apply_update u s) = Some 0%nat) /\
  (forall s, Workflow.reachable agent_run llm s ->
     exists bs c,
       Workflow.parallel_batches s = Some bs /\
       Workflow.current_batch_index s = Some c /\ (c <= length bs)%nat /\
       exists s' results,
         Workflow.parallel_batch_executor agent_run s = inr (s', results) /\
         Workflow.parallel_batches s' = Some bs /\
         (exists c', Workflow.current_batch_index s' = Some c' /\
                     (c <= c')%nat /\ (c' <= length bs)%nat) /\
         ((c < length bs)%nat -> Workflow.current_batch_index s' = Some (S c)) /\
         (c = length bs -> s' = s /\ results = ∅)).
Proof.
  split.
  - intros s u Hns Hr. unfold Workflow.router_node in Hr. rewrite Hns in Hr.
    destruct (Workflow.user_request s); [|done]. by injection Hr as <-.
  - intros s Hreach.
    destruct (WorkflowFacts.reachable_inv agent_run llm s Hreach)
      as (bs & c & Hb & Hc & Hle & Hne).
    exists bs, c. split_and!; [done|done|done|].
    destruct (WorkflowFacts.executor_step agent_run s bs c Hb Hc Hle Hne)
      as (s' & r & Hex & Hb' & Hlt & Heq).
    exists s', r. split_and!; [done|done| |done|done].
    destruct (decide (c = length bs)) as [Hl|Hl].
    + destruct (Heq Hl) as [-> _]. exists c. split_and!; [done|lia|lia].
    + exists (S c). split_and!; [apply Hlt; lia|lia|lia].
Qed.

(** C6. When [next_steps] already holds a non-empty plan, [router_node]
    returns no update, so applying it leaves the state (and with it
    [next_steps], [parallel_batches] and the cursor) unchanged. *)
Theorem router_node_reentry_noop `{PyUnicode} (llm : pystr -> option pystr)
    (s : Workflow.AgentState) (plan : list pystr)
    (Hplan : Workflow.next_steps s = Some (Some plan)) (Hne : plan <> []) :
  Workflow.router_node llm s = inr Workflow.empty_update /\
  Workflow.apply_update Workflow.empty_update s = s.
Proof.
  split; [|apply WorkflowFacts.apply_empty_update].
  unfold Workflow.router_node, Workflow.next_steps_set. rewrite Hplan.
  by destruct plan.
Qed.

(** C10. An agent name that is not a key of [AGENT_MAP] gives the empty
    dict from [_execute_agent] (no exception, no output, no error entry),
    and in a batch it is skipped: the batch returns what it returns without
    that name. *)
Theorem execute_agent_unknown_skipped
    (agent_run : pystr -> list (pystr * pyval) -> option pyval)
    (agent_name : pystr) (s : Workflow.AgentState)
    (Hunknown : agent_name ∉ map fst Workflow.AGENT_MAP) :
  Workflow.execute_agent agent_run agent_name s = ∅ /\
  (forall pre post,
     Workflow.execute_batch_parallel agent_run (pre ++ agent_name :: post) s =
     inr (Workflow.collect_results agent_run (pre ++ post) s)).
Proof.
  assert (Hnone : Workflow.execute_agent agent_run agent_name s = ∅).
  { unfold Workflow.execute_agent. by rewrite WorkflowFacts.assoc_get_not_in. }
  split; [done|].
  intros pre post. unfold Workflow.execute_batch_parallel.
  rewrite <- (WorkflowFacts.collect_results_skip agent_run agent_name s pre post Hnone).
  by destruct pre.
Qed.

Lemma router_node_reentry_noop_witness :
  Workflow.next_steps ExecutorInputs.two_task_state = Some (Some [py "summarize"; py "analyze"]) /\
  Workflow.router_node (fun _ => None) ExecutorInputs.two_task_state = inr Workflow.empty_update /\
  Workflow.apply_update Workflow.empty_update ExecutorInputs.two_task_state =
    ExecutorInputs.two_task_state.
Proof.
  split; [reflexivity|].
  apply (router_node_reentry_noop (fun _ => None) ExecutorInputs.two_task_state
           [py "summarize"; py "analyze"]); [reflexivity|discriminate].
Defined.

Lemma execute_agent_unknown_skipped_witness :
  (py "foo" ∉ map fst Workflow.AGENT_MAP) /\
  Workflow.execute_agent ExecutorInputs.analyzer_fails (py "foo") ExecutorInputs.two_task_state = ∅ /\
  (forall pre post,
     Workflow.execute_batch_parallel ExecutorInputs.analyzer_fails (pre ++ py "foo" :: post)
       ExecutorInputs.two_task_state =
     inr (Workflow.collect_results ExecutorInputs.analyzer_fails (pre ++ post)
            ExecutorInputs.two_task_state)).
Proof.
  assert (Hfoo : py "foo" ∉ map fst Workflow.AGENT_MAP).
  { apply (bool_decide_unpack _). vm_compute. reflexivity. }
  split; [exact Hfoo|].
  exact (execute_agent_unknown_skipped ExecutorInputs.analyzer_fails (py "foo")
           ExecutorInputs.two_task_state Hfoo).
Defined.

(** C7 (counterexample). ["resell personal data"] contains the substring
    ["sell personal data"], yet the [\b] before [sell] fails inside
    [resell]: no BLOCK rule matches, the PRIVACY rule matches
    ["personal data"], and the status is ["review"] with risk 3. *)
Lemma resell_personal_data_reviewed :
  py_in (py "sell personal data") (py "resell personal data") = true /\
  Compliance.run (py "resell personal data") =
    inr (Compliance.mkReport (py "review")
           [Compliance.mkIssue (py "privacy") (py "personal data")
              (py "Sensitive personal data detected")] 1 3).
Proof. split; vm_compute; reflexivity. Qed.

(** C7 (amended). When ["sell personal data"] occurs in the content at the
    start or right after a non-word character, [ComplianceAgent.run]
    returns status ["block"] with at least one issue of severity
    ["block"].  The hypotheses on the Unicode tables are those of Python's:
    ASCII lower-case letters and the space are their own lower case, the
    space is white space and no word character, the letters are word
    characters and no white space, a character matches itself under
    IGNORECASE, and the lower case of a non-word character ends in a
    non-word character. *)
Theorem sell_personal_data_blocks `{PyUnicode}
    (Hlow_az : forall c, 97 <= c <= 122 -> uc_lower c = [c])
    (Hlow_sp : uc_lower 32 = [32])
    (Hsp_sp : uc_isspace 32 = true)
    (Hsp_az : forall c, 97 <= c <= 122 -> uc_isspace c = false)
    (Hw_az : forall c, 97 <= c <= 122 -> uc_isword c = true)
    (Hw_sp : uc_isword 32 = false)
    (Hieq_refl : forall c, uc_ieq c c = true)
    (Hlow_nonword : forall c, uc_isword c = false ->
                    exists l d, uc_lower c = l ++ [d] /\ uc_isword d = false)
    (content pre post : pystr)
    (Hcontent : content = pre ++ py "sell personal data" ++ post)
    (Hpre : forall c, last pre = Some c -> uc_isword c = false) :
  exists r, Compliance.run content = inr r /\
    Compliance.status r = py "block" /\
    Exists (fun i => Compliance.issue_severity i = py "block") (Compliance.issues r).
Proof.
  subst content.
  pose proof (ComplianceFacts.block_issue_around Hlow_az Hlow_sp Hsp_sp Hsp_az Hw_az Hw_sp
                Hieq_refl Hlow_nonword pre post Hpre) as Hblock.
  set (I := Compliance.collect_issues (Compliance.normalize (pre ++ py "sell personal data" ++ post))) in *.
  destruct (ComplianceFacts.resolve_status_cases I
              (ComplianceFacts.collect_issues_severity _)) as (_ & [_ Hb] & _).
  eexists. split; [apply ComplianceFacts.run_report|].
  cbn [Compliance.status Compliance.issues]. split; [exact (Hb Hblock)|exact Hblock].
Qed.

Lemma sell_personal_data_blocks_witness :
  exists r, Compliance.run (py "We sell personal data now") = inr r /\
    Compliance.status r = py "block" /\
    Exists (fun i => Compliance.issue_severity i = py "block") (Compliance.issues r).
Proof.
  apply (@sell_personal_data_blocks latin1_unicode
           (fun c Hc => f_equal (fun x => [x]) (Latin1Facts.latin1_lower_az c Hc))
           eq_refl eq_refl Latin1Facts.latin1_isspace_az Latin1Facts.latin1_isword_az eq_refl
           (fun c => Z.eqb_refl (latin1_lower_cp c))
           (fun c Hc => ex_intro _ [] (ex_intro _ (latin1_lower_cp c)
                          (conj eq_refl (Latin1Facts.latin1_lower_nonword c Hc))))
           (py "We sell personal data now") (py "We ") (py " now")).
  - vm_compute. reflexivity.
  - intros c Hc. vm_compute in Hc. injection Hc as <-. reflexivity.
Defined.

(** C8. The handler calls [run_document_workflow] with three arguments
    ([file_path], [user_request], [extract_flag]) while it is declared with
    two: the call raises [TypeError], which the handler's [except] turns
    into HTTP 500.  Every request gets status 500, whatever the workflow
    would return; once the upload is saved, the detail is always the
    arity error. *)
Theorem process_document_always_500 `{PyUnicode}
    (workflow_body : list pyval -> gmap pystr pyval) (str_of : pyval -> pystr)
    (filename : pystr) (saved : option PyExc) (user_request extract_only : pystr) :
  (exists detail,
     Api.process_document workflow_body str_of filename saved user_request extract_only =
     Api.HttpError 500 detail) /\
  (saved = None ->
   Api.process_document workflow_body str_of filename saved user_request extract_only =
   Api.HttpError 500 (py "Internal Server Error: run_document_workflow() takes 2 positional arguments but 3 were given")).
Proof.
  destruct saved as [e|]; split.
  - eexists. reflexivity.
  - discriminate.
  - eexists. reflexivity.
  - intros _. reflexivity.
Qed.

(** C9. [ComplianceAgent.run] never raises; its status is ["ok"] exactly
    when there is no issue, ["block"] exactly when some issue has severity
    ["block"], ["review"] in every other case with issues, never
    ["privacy"]; the risk score is 5 per block issue, 3 per privacy issue
    and 1 per review issue. *)
Theorem compliance_status_and_risk `{PyUnicode} (content : pystr) :
  exists r, Compliance.run content = inr r /\
    (Compliance.status r = py "ok" <-> Compliance.issues r = []) /\
    (Compliance.status r = py "block" <->
       Exists (fun i => Compliance.issue_severity i = py "block") (Compliance.issues r)) /\
    (Compliance.issues r <> [] ->
       ~ Exists (fun i => Compliance.issue_severity i = py "block") (Compliance.issues r) ->
       Compliance.status r = py "review") /\
    Compliance.status r <> py "privacy" /\
    Compliance.risk_score r =
      5 * Compliance.count_severity Compliance.BLOCK (Compliance.issues r) +
      3 * Compliance.count_severity Compliance.PRIVACY (Compliance.issues r) +
      Compliance.count_severity Compliance.REVIEW (Compliance.issues r).
Proof.
  set (I := Compliance.collect_issues (Compliance.normalize content)).
  destruct (ComplianceFacts.resolve_status_cases I
              (ComplianceFacts.collect_issues_severity _)) as (H1 & H2 & H3 & H4).
  eexists. split; [apply ComplianceFacts.run_report|].
  cbn [Compliance.status Compliance.issues Compliance.risk_score].
  exact (conj H1 (conj H2 (conj H3 (conj H4 eq_refl)))).
Qed.

(* ================================================================== *)
(** * Further properties of the code *)

Import Workflow.

(** X1. [routing_logic] raises exactly when [state.get("next_steps", [])]
    is [None], when [state.get("current_step_index", 0)] is [None], or when
    the index is below [-len(steps)] (then [steps[index]] raises
    [IndexError]).  Every channel it returns is a key of the path map of
    [create_graph], so the conditional edge out of [node_router] always
    finds its target. *)
Theorem routing_logic_path_defined (s : AgentState) :
  (forall channel, Graph.routing_logic s = inr channel ->
     exists target, Graph.path_get channel = Some target) /\
  ((exists e, Graph.routing_logic s = inl e) <->
     Graph.get_steps s = None \/
     exists steps, Graph.get_steps s = Some steps /\
       (Graph.get_index s = None \/
        exists index, Graph.get_index s = Some index /\
          (index < - Z.of_nat (length steps))%Z)).
Proof.
  unfold Graph.routing_logic.
  destruct (Graph.get_steps s) as [steps|] eqn:Hs.
  2:{ split; [by intros ? [=]|]. split; [by left|]. intros _. by eexists. }
  destruct (Graph.get_index s) as [index|] eqn:Hi.
  2:{ split; [by intros ? [=]|]. split; [intros _; right; eauto|]. intros _. by eexists. }
  destruct (index <? Z.of_nat (length steps))%Z eqn:Hlt.
  - apply Z.ltb_lt in Hlt.
    destruct (Z_lt_le_dec index (- Z.of_nat (length steps))) as [Hneg|Hpos].
    + destruct (GraphFacts.py_index_err steps index Hneg) as [e He]. rewrite He.
      split; [by intros ? [=]|]. split; [|by eexists].
      intros _. right. eexists; split; [done|]. right. eauto.
    + destruct (GraphFacts.py_index_ok steps index) as [x Hx]; [lia|]. rewrite Hx. cbv zeta.
      split.
      * intros channel. destruct (py_mem _ _) eqn:Hm; intros [= <-];
          [by apply GraphFacts.channel_mem_path|rewrite GraphFacts.path_get_end; eauto].
      * split; [intros [e He]; by destruct (py_mem _ _)|].
        intros [Hn|(steps' & [= <-] & [Hn|(index' & [= <-] & Hlt')])]; [done|done|lia].
  - split.
    + intros channel [= <-]. rewrite GraphFacts.path_get_end. eauto.
    + split; [by intros [e [=]]|].
      apply Z.ltb_ge in Hlt.
      intros [Hn|(steps' & [= <-] & [Hn|(index' & [= <-] & Hlt')])]; [done|done|lia].
Qed.

(** X2. [RouterAgent.decide] never plans a task twice, so its plan has at
    most seven tasks. *)
Theorem decide_plan_distinct `{PyUnicode} (llm : pystr -> option pystr) (ur : pystr) :
  NoDup (Router.decide llm ur) /\ (length (Router.decide llm ur) <= 7)%nat.
Proof. split; [apply PlanFacts.decide_nodup|apply PlanFacts.decide_length]. Qed.

(** X3. The keyword fallback plans the matched categories in the fixed
    order summarize, translate, analyze, recommend, ideate, copywrite,
    compliance (the summary task is put first), and plans [[analyze]] when
    no category matches. *)
Theorem keyword_fallback_order `{PyUnicode} (ur : pystr) :
  Router.keyword_fallback ur =
    match map snd (List.filter (fun p => Router.any_in (fst p) (py_lower ur))
                     FallbackOrder.ordered_categories) with
    | [] => [Router.analyze]
    | plan => plan
    end.
Proof.
  unfold Router.keyword_fallback, FallbackOrder.ordered_categories. cbn [List.filter fst].
  destruct (Router.any_in Router.translate_words _), (Router.any_in Router.analyze_words _),
    (Router.any_in Router.summary_words _), (Router.any_in Router.recommend_words _),
    (Router.any_in Router.ideate_words _), (Router.any_in Router.copywrite_words _),
    (Router.any_in Router.compliance_words _); vm_compute; reflexivity.
Qed.

(** X4. The sequential graph of graphs/document_graph.py, entered at its
    router with no plan yet and with task nodes that succeed, takes the
    channels [to_<task>] of the plan of [RouterAgent.decide] one by one, in
    order, and then [end]; the final state keeps the plan and its step
    index equals the plan's length.  Fifteen node runs are enough for every
    plan. *)
Theorem graph_runs_plan_in_order `{PyUnicode} (llm : pystr -> option pystr)
    (node_body : pystr -> AgentState -> PyExc + gmap pystr pyval)
    (s0 : AgentState) (ur : pystr) (fuel : nat) :
  next_steps_set s0 = false -> user_request s0 = Some ur ->
  (forall node s, exists out, node_body node s = inr out) ->
  (15 <= fuel)%nat ->
  exists final,
    Graph.run_from_router llm node_body fuel s0 =
      Some (inr (map (fun t => py "to_" ++ t) (Router.decide llm ur) ++ [py "end"], final)) /\
    next_steps final = Some (Some (Router.decide llm ur)) /\
    current_step_index final = Some (Some (Z.of_nat (length (Router.decide llm ur)))).
Proof.
  intros Hset Hur Hbody Hfuel.
  destruct (GraphFacts.decide_valid llm ur) as [Hne Hv].
  pose proof (PlanFacts.decide_length llm ur) as Hlen.
  destruct fuel as [|fuel]; [lia|].
  assert (Hrun : Graph.run_from_router llm node_body (S fuel) s0 =
                 Graph.run_from_router llm node_body (S fuel)
                   (apply_update (mkAgentState None None None None
                      (Some (Some (Router.decide llm ur))) (Some (Some 0%Z)) None None ∅) s0)).
  { cbn [Graph.run_from_router]. unfold Graph.graph_router_node at 1.
    rewrite Hset, Hur. unfold Graph.graph_router_node.
    replace (next_steps_set _) with true
      by (unfold next_steps_set; simpl; by destruct (Router.decide llm ur)).
    by rewrite WorkflowFacts.apply_empty_update. }
  rewrite Hrun.
  destruct (GraphFacts.run_plan_from llm node_body (Router.decide llm ur) Hne Hv Hbody
              (length (Router.decide llm ur)) (apply_update (mkAgentState None None None None
                      (Some (Some (Router.decide llm ur))) (Some (Some 0%Z)) None None ∅) s0)
              0%nat (S fuel)) as (final & Hr & Hn & Hi);
    [done|done|done|lia|].
  exists final. rewrite Hr. by rewrite drop_0.
Qed.

(** X5. When the task node of the [i]-th planned task raises, the graph run
    ends with that exception: the tasks planned after it never run (the
    plan has no repeated task). *)
Theorem graph_stops_at_failing_node `{PyUnicode} (llm : pystr -> option pystr)
    (node_body : pystr -> AgentState -> PyExc + gmap pystr pyval)
    (s0 : AgentState) (ur : pystr) (fuel i : nat) (e : PyExc) :
  next_steps_set s0 = false -> user_request s0 = Some ur ->
  (i < length (Router.decide llm ur))%nat ->
  (forall s, node_body (py "node_" ++ nth i (Router.decide llm ur) []) s = inl e) ->
  (forall node s, node <> py "node_" ++ nth i (Router.decide llm ur) [] ->
     exists out, node_body node s = inr out) ->
  (15 <= fuel)%nat ->
  Graph.run_from_router llm node_body fuel s0 = Some (inl e).
Proof.
  intros Hset Hur Hi Hfail Hok Hfuel.
  destruct (GraphFacts.decide_valid llm ur) as [Hne Hv].
  pose proof (PlanFacts.decide_length llm ur) as Hlen.
  destruct fuel as [|fuel]; [lia|].
  assert (Hrun : Graph.run_from_router llm node_body (S fuel) s0 =
                 Graph.run_from_router llm node_body (S fuel)
                   (apply_update (mkAgentState None None None None
                      (Some (Some (Router.decide llm ur))) (Some (Some 0%Z)) None None ∅) s0)).
  { cbn [Graph.run_from_router]. unfold Graph.graph_router_node at 1.
    rewrite Hset, Hur. unfold Graph.graph_router_node.
    replace (next_steps_set _) with true
      by (unfold next_steps_set; simpl; by destruct (Router.decide llm ur)).
    by rewrite WorkflowFacts.apply_empty_update. }
  rewrite Hrun.
  apply (GraphFailFacts.run_plan_fail llm node_body (Router.decide llm ur) i e Hne Hv
           (PlanFacts.decide_nodup llm ur) Hi Hfail Hok i _ 0%nat); [lia|done|done|lia].
Qed.

(** X6. When no [future.result(timeout=120)] of [_execute_batch_parallel]
    times out, its result is the executor's [execute_batch_parallel], and on
    a non-empty batch it is the dict [_execute_batch_async] returns.  With
    timeouts, every entry it returns is also an entry of the
    [_execute_batch_async] dict: a timed-out agent's result is only dropped.
    On the empty batch the asyncio version returns [{}] where the
    thread-pool version raises [ValueError]. *)
Theorem execute_batch_async_agrees
    (agent_run : pystr -> list (pystr * pyval) -> option pyval) (timed_out : nat -> bool)
    (batch : list pystr) (s : AgentState) :
  ((forall i, (i < length batch)%nat -> timed_out i = false) ->
     BatchTimeout.execute_batch_parallel agent_run timed_out batch s =
       execute_batch_parallel agent_run batch s /\
     (batch <> [] ->
        BatchTimeout.execute_batch_parallel agent_run timed_out batch s =
          inr (AsyncBatch.execute_batch_async agent_run batch s))) /\
  (forall results,
     BatchTimeout.execute_batch_parallel agent_run timed_out batch s = inr results ->
     results ⊆ AsyncBatch.execute_batch_async agent_run batch s) /\
  AsyncBatch.execute_batch_async agent_run [] s = ∅ /\
  BatchTimeout.execute_batch_parallel agent_run timed_out [] s =
    inl (ValueError (py "max_workers must be greater than 0")).
Proof.
  split_and!; [|intros results|done|done].
  - intros Ht.
    assert (Hc : BatchTimeout.collect_from agent_run timed_out 0 batch s ∅ =
                 collect_results agent_run batch s).
    { apply ExecutorFacts.collect_from_no_timeout. intros j Hj. apply Ht. lia. }
    unfold BatchTimeout.execute_batch_parallel, execute_batch_parallel.
    rewrite Hc, ExecutorFacts.merge_gathered_collect. split; [by destruct batch|].
    intros Hb. by destruct batch.
  - unfold BatchTimeout.execute_batch_parallel. destruct batch as [|a0 rest] eqn:Hb; [done|].
    rewrite <- Hb. intros [= <-]. apply map_subseteq_spec. intros k v Hv.
    rewrite ExecutorFacts.merge_gathered_collect. unfold collect_results.
    destruct (ExecutorFacts.collect_from_lookup agent_run timed_out 0 batch s ∅ k v Hv)
      as [Hv'%lookup_empty_Some|(a & Ha & Hav)]; [done|].
    destruct (ExecutorFacts.fold_merge_is_some agent_run batch s ∅ k) as [w Hw];
      [right; by exists a, v|].
    rewrite Hw.
    destruct (ExecutorFacts.fold_merge_lookup agent_run batch s ∅ k w Hw)
      as [Hw'%lookup_empty_Some|(b & Hb' & Hbw)]; [done|].
    f_equal. symmetry. exact (ExecutorFacts.execute_agent_agree agent_run a b s k v w Hav Hbw).
Qed.

(** X7. Every key of the dict [parallel_batch_executor] returns is one of
    the seven capability fields ([summary], [translation], [analysis],
    [recommendation], [ideation], [copywriting], [compliance]). *)
Theorem parallel_batch_executor_output_keys
    (agent_run : pystr -> list (pystr * pyval) -> option pyval) (s s' : AgentState)
    (results : gmap pystr pyval) (k : pystr) (v : pyval) :
  parallel_batch_executor agent_run s = inr (s', results) -> results !! k = Some v ->
  k ∈ map snd STATE_KEYS.
Proof. apply ExecutorFacts.parallel_batch_executor_keys. Qed.

(** X8. [_clean_response_state] removes the five internal keys, replaces
    each present string field by the string [_extract_agent_output] makes of
    it, unwraps a [compliance] dict that has an ["output"] key by one level,
    and keeps every other key as it is; it adds no key. *)
Theorem clean_response_state_lookup (str_of : pyval -> pystr)
    (state : gmap pystr pyval) (k : pystr) :
  ResponseCleaning.clean_response_state str_of state !! k =
    if bool_decide (k ∈ ResponseCleaning.internal_fields) then None
    else if bool_decide (k ∈ ResponseCleaning.string_fields)
    then (fun v => VStr (ResponseCleaning.extract_agent_output str_of v)) <$> state !! k
    else if bool_decide (k = py "compliance") then
      match state !! k with
      | Some (VDict d) =>
          match ResponseCleaning.dict_get (py "output") d with
          | Some o => Some o
          | None => Some (VDict d)
          end
      | other => other
      end
    else state !! k.
Proof.
  unfold ResponseCleaning.clean_response_state. cbv zeta. rewrite ResponseFacts.fold_delete.
  case_bool_decide; [done|].
  assert (Hc : py "compliance" ∉ ResponseCleaning.string_fields)
    by (apply (bool_decide_unpack _); vm_compute; reflexivity).
  set (cleaned := fold_left _ ResponseCleaning.string_fields state).
  assert (H1 : forall k', cleaned !! k' =
    if bool_decide (k' ∈ ResponseCleaning.string_fields)
    then (fun v => VStr (ResponseCleaning.extract_agent_output str_of v)) <$> state !! k'
    else state !! k') by (intros k'; apply ResponseFacts.fold_string_fields).
  assert (H2 : cleaned !! py "compliance" = state !! py "compliance")
    by (rewrite H1; by rewrite bool_decide_false).
  rewrite H2.
  assert (Hm : forall o, k <> py "compliance" ->
                 (<[py "compliance" := o]> cleaned) !! k = cleaned !! k)
    by (intros o Hk; by rewrite lookup_insert_ne).
  destruct (decide (k = py "compliance")) as [->|Hk].
  - rewrite (bool_decide_false _ Hc), bool_decide_true by done.
    destruct (state !! py "compliance") as [[| | | | |d]|] eqn:Hs; try by rewrite H2.
    destruct (ResponseCleaning.dict_get (py "output") d); [by rewrite lookup_insert_eq|by rewrite H2].
  - rewrite (bool_decide_false (k = _) Hk).
    destruct (state !! py "compliance") as [[| | | | |d]|]; rewrite ?H1; try done.
    destruct (ResponseCleaning.dict_get (py "output") d); by rewrite ?Hm, H1.
Qed.

(** X9. [_extract_agent_output] sees through any number of nested
    [{"output": ...}] dicts: the wrapped value gives the same string as the
    value itself. *)
Theorem extract_agent_output_unwraps (str_of : pyval -> pystr) (n : nat) (v : pyval) :
  ResponseCleaning.extract_agent_output str_of (ResponseCleaning.wrap_output n v) =
  ResponseCleaning.extract_agent_output str_of v.
Proof.
  induction n as [|n IH]; [done|]. cbn [ResponseCleaning.wrap_output].
  rewrite ResponseFacts.extract_dict. exact IH.
Qed.

(** X10. The report of [ComplianceAgent.run], as the dict it returns, always
    passes [OutputValidator.validate_compliance], the check [compliance_node]
    applies to it. *)
Theorem compliance_report_validates `{PyUnicode} (content : pystr) :
  exists r, Compliance.run content = inr r /\
    OutputValidator.validate_compliance (OutputValidator.report_dict r) = inr true.
Proof.
  eexists. split; [apply ComplianceFacts.run_report|].
  apply ValidatorFacts.validate_report;
    cbn [Compliance.status Compliance.issues Compliance.issue_count Compliance.risk_score].
  - apply ValidatorFacts.resolve_status_values.
  - apply ComplianceFacts.collect_issues_severity.
  - done.
  - unfold Compliance.count_severity. lia.
Qed.

(** X11. The output of [clean_extra_whitespace] has no whitespace but single
    spaces, none at either end, and cleaning it again leaves it unchanged. *)
Theorem clean_extra_whitespace_normal `{PyUnicode} (text : pystr) :
  TextTools.ws_normal (TextTools.clean_extra_whitespace text) = true /\
  TextTools.clean_extra_whitespace (TextTools.clean_extra_whitespace text) =
    TextTools.clean_extra_whitespace text.
Proof.
  split; [apply TextFacts.clean_normal|].
  apply TextFacts.ws_normal_fixed, TextFacts.clean_normal.
Qed.

(** X12. The output of [BriefValidator.sanitize_text] has no control
    character (U+0000..U+001F, U+007F..U+009F) and no bullet (•, ◦, ▪, ►),
    has no whitespace but single spaces and none at either end, and
    [clean_extra_whitespace] leaves it unchanged, whatever the NFKC table. *)
Theorem sanitize_text_clean `{PyUnicode} (nfkc : pystr -> pystr) (text : pystr) :
  TextTools.ws_normal (TextTools.sanitize_text nfkc text) = true /\
  Forall (fun c => TextTools.is_control c = false /\ TextTools.is_bullet c = false)
    (TextTools.sanitize_text nfkc text) /\
  TextTools.clean_extra_whitespace (TextTools.sanitize_text nfkc text) =
    TextTools.sanitize_text nfkc text.
Proof.
  destruct text as [|x text]; [done|].
  change (TextTools.sanitize_text nfkc (x :: text)) with
    (TextTools.clean_extra_whitespace
       (TextTools.sub_bullets false (TextTools.sub_controls (nfkc (x :: text))))).
  split_and!.
  - apply TextFacts.clean_normal.
  - apply Forall_forall. intros c Hc.
    apply TextFacts.py_strip_elems, TextFacts.collapse_ws_elems in Hc as [Hc| ->]; [|done].
    apply TextFacts.sub_bullets_elems in Hc as [[Hc Hb]| ->]; [|done].
    split; [|done]. unfold TextTools.sub_controls in Hc.
    apply list_elem_of_fmap in Hc as (y & -> & _).
    destruct (TextTools.is_control y) eqn:Hy; [done|exact Hy].
  - apply TextFacts.ws_normal_fixed, TextFacts.clean_normal.
Qed.

(** X13. [BriefValidator.is_valid_brief] rejects every text shorter than 100
    code points, and text added before or after a valid brief keeps it
    valid. *)
Theorem is_valid_brief_short_and_monotone `{PyUnicode} (t a b : pystr) :
  ((length t < 100)%nat -> TextTools.is_valid_brief t = false) /\
  (TextTools.is_valid_brief t = true -> TextTools.is_valid_brief (a ++ t ++ b) = true).
Proof.
  rewrite !BriefFacts.is_valid_brief_eq. split.
  - intros Hl. apply Nat.ltb_lt in Hl. by rewrite Hl.
  - destruct (length t <? 100)%nat eqn:Hl; [done|]. intros Hm.
    apply Nat.ltb_ge in Hl.
    replace (length (a ++ t ++ b) <? 100)%nat with false
      by (symmetry; apply Nat.ltb_ge; rewrite !length_app; lia).
    apply negb_true_iff, Nat.ltb_ge in Hm. apply negb_true_iff, Nat.ltb_ge.
    etransitivity; [exact Hm|]. apply BriefFacts.filter_length_mono.
    intros w Hw. rewrite !ComplianceFacts.py_lower_app.
    by apply BriefFacts.py_in_app_l, BriefFacts.py_in_app_r.
Qed.

(** Witnesses. *)

Lemma graph_runs_plan_in_order_witness :
  exists final,
    Graph.run_from_router GraphInputs.no_llm GraphInputs.empty_body 15 GraphInputs.fresh_state =
      Some (inr (map (fun t => py "to_" ++ t)
                   (Router.decide GraphInputs.no_llm (py "Summarize and translate")) ++ [py "end"],
                 final)) /\
    next_steps final = Some (Some (Router.decide GraphInputs.no_llm (py "Summarize and translate"))) /\
    current_step_index final =
      Some (Some (Z.of_nat
        (length (Router.decide GraphInputs.no_llm (py "Summarize and translate"))))).
Proof.
  apply (@graph_runs_plan_in_order latin1_unicode GraphInputs.no_llm GraphInputs.empty_body
           GraphInputs.fresh_state (py "Summarize and translate") 15);
    [reflexivity|reflexivity|intros; eexists; reflexivity|lia].
Defined.

Lemma graph_stops_at_failing_node_witness :
  Graph.run_from_router GraphInputs.no_llm GraphInputs.translator_fails 15 GraphInputs.fresh_state =
    Some (inl (ValueError (py "translation failed"))).
Proof.
  apply (@graph_stops_at_failing_node latin1_unicode GraphInputs.no_llm
           GraphInputs.translator_fails GraphInputs.fresh_state (py "Summarize and translate")
           15 1 (ValueError (py "translation failed")));
    [reflexivity|reflexivity|vm_compute; lia|intros; vm_compute; reflexivity| |lia].
  intros node s Hn. vm_compute in Hn. unfold GraphInputs.translator_fails, pystr_eqb.
  rewrite bool_decide_false by exact Hn. eexists; reflexivity.
Defined.

Lemma parallel_batch_executor_output_keys_witness :
  py "summary" ∈ map snd STATE_KEYS.
Proof.
  apply (parallel_batch_executor_output_keys ExecutorInputs.analyzer_fails
           ExecutorInputs.two_task_state
           (set_current_batch_index 1 ExecutorInputs.two_task_state)
           {[py "summary" := VStr (py "A short summary.")]} (py "summary")
           (VStr (py "A short summary.")));
    vm_compute; reflexivity.
Defined.
